(** * Omni_Diary: retrieval context, prompt formatting, analysis request

    A shallow embedding of [Omni_Diary.py].  Python values are modelled as
    the interpreter has them: a [str] is a sequence of Unicode code points,
    a [dict] is an insertion-ordered list of key/value pairs, integers are
    unbounded.  The Qt date and time classes used by the program are
    modelled by their Julian-day representation. *)

From Stdlib Require Import ZArith NArith Lia Bool Ascii String SpecFloat.
From stdpp Require Import base option list sorting gmap.

Open Scope Z_scope.

(** ** Python strings *)

Module Py.

(** A character is a Unicode code point; [len], slicing, comparison and
    [strip] all work per code point. *)
Definition char := N.
Definition str := list char.

(** A source literal, written with one byte per (ASCII) character. *)
Definition lit (s : string) : str :=
  List.map N_of_ascii (list_ascii_of_string s).

(** [str.isspace] on one character: the code points Python treats as
    whitespace. *)
Definition isspace (c : char) : bool :=
  ((9 <=? c) && (c <=? 13) || (28 <=? c) && (c <=? 32) ||
   (c =? 133) || (c =? 160) || (c =? 5760) ||
   (8192 <=? c) && (c <=? 8202) || (c =? 8232) || (c =? 8233) ||
   (c =? 8239) || (c =? 8287) || (c =? 12288))%N.

Fixpoint lstrip (s : str) : str :=
  match s with
  | [] => []
  | c :: s' => if isspace c then lstrip s' else s
  end.

Definition rstrip (s : str) : str := rev (lstrip (rev s)).

(** [s.strip()] *)
Definition strip (s : str) : str := rstrip (lstrip s).

(** [a < b] on strings: lexicographic on code points, a proper prefix
    being smaller. *)
Fixpoint str_ltb (a b : str) : bool :=
  match a, b with
  | _, [] => false
  | [], _ :: _ => true
  | x :: a', y :: b' =>
      if (x <? y)%N then true
      else if (y <? x)%N then false
      else str_ltb a' b'
  end.

(** [a <= b] is the negation of [b < a]; the order is total. *)
Definition str_leb (a b : str) : bool := negb (str_ltb b a).

Definition str_le (a b : str) : Prop := str_leb a b = true.

Definition str_eqb (a b : str) : bool := bool_decide (a = b).

Fixpoint startswith (s prefix : str) : bool :=
  match prefix, s with
  | [], _ => true
  | _ :: _, [] => false
  | p :: prefix', c :: s' => (p =? c)%N && startswith s' prefix'
  end.

(** [needle in hay] on two strings: the substring test. *)
Fixpoint contains (hay needle : str) : bool :=
  startswith hay needle ||
  match hay with
  | [] => false
  | _ :: hay' => contains hay' needle
  end.

(** [sep.join(parts)] *)
Fixpoint join (sep : str) (parts : list str) : str :=
  match parts with
  | [] => []
  | [p] => p
  | p :: ps => p ++ sep ++ join sep ps
  end.

(** [bool(s)] for a string. *)
Definition truthy_str (s : str) : bool :=
  match s with [] => false | _ :: _ => true end.

(** ** Python dictionaries

    A [dict] keeps its items in insertion order; [d[k] = v] replaces the
    value of an existing key in place and appends a new key at the end. *)
Definition dict (V : Type) := list (str * V).

Fixpoint setitem {V} (d : dict V) (k : str) (v : V) : dict V :=
  match d with
  | [] => [(k, v)]
  | (k', v') :: d' =>
      if str_eqb k' k then (k, v) :: d' else (k', v') :: setitem d' k v
  end.

(** [d.get(k)]: the value of a key, if the key is there. *)
Fixpoint getitem {V} (d : dict V) (k : str) : option V :=
  match d with
  | [] => None
  | (k', v) :: d' => if str_eqb k' k then Some v else getitem d' k
  end.

(** [d.keys()] *)
Definition keys {V} (d : dict V) : list str := fst <$> d.

(** ** [list.sort(key=...)] and [sorted(..., key=...)]

    Python's sort is stable and compares keys with [<] only.  The stable
    sort of a list is unique, so it is modelled by insertion from the
    right: an element is placed before the first element that is not
    smaller than it. *)
Section Sort.
Context {A : Type} (key : A → str).

Fixpoint insert_by (x : A) (l : list A) : list A :=
  match l with
  | [] => [x]
  | y :: l' =>
      if str_ltb (key y) (key x) then y :: insert_by x l' else x :: l
  end.

Definition sorted_by (l : list A) : list A := foldr insert_by [] l.

(** The order of two elements by their keys. *)
Definition key_le (x y : A) : Prop := str_le (key x) (key y).
End Sort.

End Py.

Import Py.

(** ** Qt dates and times

    [QDate] is a Julian day number, [QTime] a count of milliseconds since
    midnight; both are local wall-clock values (time-zone transitions are
    outside the model).  The calendar arithmetic is Qt's Gregorian
    calendar. *)

Module Qt.

(** There is no year 0: the year before 1 is -1. *)
Definition leapTest (year : Z) : bool :=
  let y := if year <? 1 then year + 1 else year in
  (y mod 4 =? 0) && (negb (y mod 100 =? 0) || (y mod 400 =? 0)).

Definition monthLength (month year : Z) : Z :=
  if (month <? 1) || (12 <? month) then 0
  else if month =? 2 then (if leapTest year then 29 else 28)
  else Z.lor 30 (Z.lxor (Z.land month 1) (Z.shiftr month 3)).

Definition validParts (year month day : Z) : bool :=
  negb (year =? 0) && (0 <? day) && (day <=? monthLength month year).

Definition julianFromParts (year month day : Z) : option Z :=
  if validParts year month day then
    let year := if year <? 0 then year + 1 else year in
    let a := if month <? 3 then 1 else 0 in
    let y := year + 4800 - a in
    let m := month + 12 * a - 3 in
    Some (day + (153 * m + 2) / 5 - 32045
          + 365 * y + y / 4 - y / 100 + y / 400)
  else None.

Definition partsFromJulian (jd : Z) : Z * Z * Z :=
  let a := jd + 32044 in
  let b := (4 * a + 3) / 146097 in
  let c := a - 146097 * b / 4 in
  let d := (4 * c + 3) / 1461 in
  let e := c - 1461 * d / 4 in
  let m := (5 * e + 2) / 153 in
  let day := e - (153 * m + 2) / 5 + 1 in
  let month := m + 3 - 12 * (m / 10) in
  let year := 100 * b + d - 4800 + m / 10 in
  (if year <=? 0 then year - 1 else year, month, day).

(** A [QDateTime] is either invalid (the default-constructed value, whose
    date is null) or a date with a time of day. *)
Inductive QDateTime : Type :=
  | Invalid
  | DateTime (jd : Z) (msecs : Z).

Definition isValid (dt : QDateTime) : bool :=
  match dt with Invalid => false | DateTime _ _ => true end.

(** [a.daysTo(b)]: the difference of the two dates in days, and 0 when
    either date is null. *)
Definition daysTo (a b : QDateTime) : Z :=
  match a, b with
  | DateTime ja _, DateTime jb _ => jb - ja
  | _, _ => 0
  end.

Definition addDays (dt : QDateTime) (ndays : Z) : QDateTime :=
  match dt with
  | Invalid => Invalid
  | DateTime jd ms => DateTime (jd + ndays) ms
  end.

(** The display formats the program uses. *)
Inductive format : Type :=
  | yyyy_MM_dd
  | yyyy_MM_dd_HH_mm
  | yyyy_MM_dd_HH_mm_ss.

Fixpoint decimal_go (fuel : nat) (n : Z) (acc : str) : str :=
  match fuel with
  | O => acc
  | S fuel' =>
      let acc' := Z.to_N (48 + n mod 10) :: acc in
      if n <? 10 then acc' else decimal_go fuel' (n / 10) acc'
  end.

(** A non-negative number in decimal, zero-padded to [width] digits. *)
Definition decimal (width : nat) (n : Z) : str :=
  let s := decimal_go (S (Z.to_nat (Z.log2 n))) n [] in
  replicate (width - length s) 48%N ++ s.

(** [yyyy] writes a year before 1 with a minus sign and a year after 9999
    with a plus sign. *)
Definition toString_date (jd : Z) : str :=
  let '(year, month, day) := partsFromJulian jd in
  (if year <? 0 then lit "-" else if 9999 <? year then lit "+" else [])
  ++ decimal 4 (Z.abs year)
  ++ lit "-" ++ decimal 2 month ++ lit "-" ++ decimal 2 day.

(** [dt.toString(fmt)]; an invalid value gives the empty string. *)
Definition toString (dt : QDateTime) (fmt : format) : str :=
  match dt with
  | Invalid => []
  | DateTime jd ms =>
      let hh := decimal 2 (ms / 3600000) in
      let mm := decimal 2 (ms / 60000 mod 60) in
      let ss := decimal 2 (ms / 1000 mod 60) in
      match fmt with
      | yyyy_MM_dd => toString_date jd
      | yyyy_MM_dd_HH_mm =>
          toString_date jd ++ lit " " ++ hh ++ lit ":" ++ mm
      | yyyy_MM_dd_HH_mm_ss =>
          toString_date jd ++ lit " " ++ hh ++ lit ":" ++ mm
          ++ lit ":" ++ ss
      end
  end.

(** *** Reading a timestamp key

    The text of a timestamp key is [YYYY-MM-DD HH:MM]: sixteen characters,
    ASCII digits in the numeric fields, a calendar date that exists and a
    time of day below 24:00. *)
Definition digit (c : char) : option Z :=
  if ((48 <=? c) && (c <=? 57))%N then Some (Z.of_N c - 48) else None.

Definition number (cs : list char) : option Z :=
  foldl (λ acc c, n ← acc; d ← digit c; Some (10 * n + d)) (Some 0) cs.

Definition fields (s : str) : option (Z * Z * Z * Z * Z) :=
  match s with
  | [y1; y2; y3; y4; s1; m1; m2; s2; d1; d2; s3; h1; h2; s4; n1; n2] =>
      if bool_decide ([s1; s2; s3; s4] = lit "-- :") then
        year ← number [y1; y2; y3; y4];
        month ← number [m1; m2];
        day ← number [d1; d2];
        hour ← number [h1; h2];
        minute ← number [n1; n2];
        Some (year, month, day, hour, minute)
      else None
  | _ => None
  end.

(** [QDateTime.fromString(s, "yyyy-MM-dd HH:mm")] as it reads the keys the
    program writes with [toString]; a text that is not of that form reads
    as [Invalid].  The text is read as the wall-clock value it names: the
    hour a daylight-saving change skips, which the library moves or
    rejects, is not modelled. *)
Definition fromString (s : str) : QDateTime :=
  match fields s with
  | Some (year, month, day, hour, minute) =>
      if (hour <? 24) && (minute <? 60) then
        match julianFromParts year month day with
        | Some jd => DateTime jd ((hour * 60 + minute) * 60000)
        | None => Invalid
        end
      else Invalid
  | None => Invalid
  end.

End Qt.


(** ** The retrieval context ([DiaryApp.prepare_rag_context]) *)

Module Recent.
Record item : Type := { datetime : str; content : str; days_ago : Z }.
End Recent.

Module Upcoming.
Record item : Type :=
  { datetime : str; event : str; days_until : Z; is_urgent : bool }.
End Upcoming.

Record date_range : Type := { start : str; end_ : str }.

Module Rag.
Record context : Type :=
  { current_datetime : str;
    recent_events : list Recent.item;
    upcoming_events : list Upcoming.item;
    date_range : date_range }.
End Rag.

(** The two mappings the window keeps in memory. *)
Record DiaryApp : Type :=
  { diary_entries : dict str; calendar_events : dict str }.

Section ContextBuilder.

(** [QDateTime.fromString(_, "yyyy-MM-dd HH:mm")], the library's reader of
    timestamp keys.  The builder is stated for any reader; [Qt.fromString]
    is the one used to run it. *)
Variable QDateTime_fromString : str → Qt.QDateTime.

(** One turn of the loop over [diary_entries.items()]. *)
Definition recent_step (current_datetime : Qt.QDateTime)
    (recent : list Recent.item) (kv : str * str) : list Recent.item :=
  let '(datetime_str, entry) := kv in
  let entry_datetime := QDateTime_fromString datetime_str in
  let days_difference := Qt.daysTo entry_datetime current_datetime in
  if (-7 <=? days_difference) && (days_difference <=? 0) then
    recent ++ [ {| Recent.datetime := datetime_str;
                   Recent.content := entry;
                   Recent.days_ago := Z.abs days_difference |} ]
  else recent.

(** One turn of the loop over [calendar_events.items()]. *)
Definition upcoming_step (current_datetime : Qt.QDateTime)
    (upcoming : list Upcoming.item) (kv : str * str) : list Upcoming.item :=
  let '(datetime_str, event) := kv in
  let event_datetime := QDateTime_fromString datetime_str in
  let days_difference := Qt.daysTo current_datetime event_datetime in
  if (0 <=? days_difference) && (days_difference <=? 14) then
    upcoming ++ [ {| Upcoming.datetime := datetime_str;
                     Upcoming.event := event;
                     Upcoming.days_until := days_difference;
                     Upcoming.is_urgent := days_difference <=? 3 |} ]
  else upcoming.

Definition prepare_rag_context (self : DiaryApp)
    (current_datetime : Qt.QDateTime) : Rag.context :=
  let recent := foldl (recent_step current_datetime) [] (diary_entries self) in
  let upcoming :=
    foldl (upcoming_step current_datetime) [] (calendar_events self) in
  {| Rag.current_datetime :=
       Qt.toString current_datetime Qt.yyyy_MM_dd_HH_mm_ss;
     Rag.recent_events := sorted_by Recent.datetime recent;
     Rag.upcoming_events := sorted_by Upcoming.datetime upcoming;
     Rag.date_range :=
       {| start := Qt.toString (Qt.addDays current_datetime (-7)) Qt.yyyy_MM_dd;
          end_ := Qt.toString (Qt.addDays current_datetime 14) Qt.yyyy_MM_dd |} |}.

End ContextBuilder.

(** ** The prompt ([LLMQuery.format_rag_context] and the templates of
    [LLMQuery.query_llm]) *)

Module Prompt.
Record context : Type :=
  { current_datetime : str;
    date_range : date_range;
    formatted_diary_entries : str;
    formatted_calendar_events : str }.
End Prompt.

(** [f"[{entry['datetime']}] {entry['content'][:200]}{'...' if
    len(entry['content']) > 200 else ''}"] *)
Definition diary_line (entry : Recent.item) : str :=
  lit "[" ++ Recent.datetime entry ++ lit "] "
  ++ take 200 (Recent.content entry)
  ++ (if (200 <? length (Recent.content entry))%nat then lit "..." else lit "").

(** [f"[{event['datetime']}] {event['event']}"] *)
Definition event_line (event : Upcoming.item) : str :=
  lit "[" ++ Upcoming.datetime event ++ lit "] " ++ Upcoming.event event.

Definition nl : str := [10%N].

Definition format_rag_context (context : Rag.context) : Prompt.context :=
  {| Prompt.current_datetime := Rag.current_datetime context;
     Prompt.date_range := Rag.date_range context;
     Prompt.formatted_diary_entries :=
       join nl (diary_line <$>
                sorted_by Recent.datetime (Rag.recent_events context));
     Prompt.formatted_calendar_events :=
       join nl (event_line <$>
                sorted_by Upcoming.datetime (Rag.upcoming_events context)) |}.

Definition indent : str := lit "        ".

Definition system_prompt : str :=
  join (nl ++ indent)
    [ lit "You are a helpful diary assistant that analyzes personal entries and events. ";
      lit "Analyze the provided diary entries and calendar events to:";
      lit "1. Identify patterns and connections between entries";
      lit "2. Highlight important upcoming events";
      lit "3. Summarize recent activities and their significance";
      lit "4. Suggest potential actions based on the entries";
      lit "Format your response in clear sections:";
      lit "- Recent Activity Summary";
      lit "- Patterns & Insights";
      lit "- Important Upcoming Events";
      lit "- Suggested Actions" ].

Definition user_prompt (context : Prompt.context) : str :=
  join (nl ++ indent)
    [ lit "";
      lit "Timeline Context:";
      lit "Current Date and Time: " ++ Prompt.current_datetime context;
      lit "Date Range: " ++ start (Prompt.date_range context)
        ++ lit " to " ++ end_ (Prompt.date_range context);
      lit "Recent Diary Entries:";
      Prompt.formatted_diary_entries context;
      lit "Calendar Events:";
      Prompt.formatted_calendar_events context;
      lit "Please provide an analysis based on this information.";
      lit "" ].

(** The [prompt] field of the request: [f"{system_prompt}\n\n{user_prompt}"]. *)
Definition prompt (context : Rag.context) : str :=
  system_prompt ++ nl ++ nl ++ user_prompt (format_rag_context context).


(** ** The analysis request ([LLMQuery.query_llm])

    What [response.json()] returns: the Python value of a JSON document. *)

#[local] Set Warnings "-register-all".
Inductive pyobj : Type :=
  | PyNone
  | PyBool (b : bool)
  | PyInt (n : Z)
  | PyFloat (x : spec_float)
  | PyStr (s : str)
  | PyList (items : list pyobj)
  | PyDict (items : list (str * pyobj)).

(** The exceptions the request can meet.  Those of [requests] derive from
    [RequestException] ([ConnectionError] stands for every failure of the
    connection itself), and so does the error [response.json()] raises on
    a body that is not JSON, [requests.exceptions.JSONDecodeError]. *)
Inductive http_error : Type :=
  | ConnectionError (e : str)
  | Timeout (e : str)
  | HTTPError (e : str)
  | JSONDecodeError (e : str).

Inductive builtin_error : Type :=
  | TypeError | KeyError | IndexError | AttributeError.

Inductive exn : Type :=
  | Requests (e : http_error)
  | Builtin (e : builtin_error).

Definition is_RequestException (e : exn) : bool :=
  match e with
  | Requests _ => true
  | Builtin _ => false
  end.

(** A computation that returns or raises. *)
Definition raising (A : Type) : Type := exn + A.

Definition ret {A} (a : A) : raising A := inr a.
Definition raise {A} (e : builtin_error) : raising A := inl (Builtin e).
Definition bind {A B} (m : raising A) (k : A → raising B) : raising B :=
  match m with inl e => inl e | inr a => k a end.

Declare Scope raising_scope.
Delimit Scope raising_scope with raising.
Notation "x <- m ;; k" := (bind m (λ x, k))
  (at level 100, m at next level, right associativity) : raising_scope.

(** [bool(v)] *)
Definition truthy (v : pyobj) : bool :=
  match v with
  | PyNone => false
  | PyBool b => b
  | PyInt n => negb (n =? 0)
  | PyFloat (S754_zero _) => false
  | PyFloat _ => true
  | PyStr s => truthy_str s
  | PyList [] => false
  | PyList (_ :: _) => true
  | PyDict [] => false
  | PyDict (_ :: _) => true
  end.

Fixpoint lookup_key (items : list (str * pyobj)) (k : str) : option pyobj :=
  match items with
  | [] => None
  | (k', v) :: items' => if str_eqb k' k then Some v else lookup_key items' k
  end.

Definition is_str (k : str) (v : pyobj) : bool :=
  match v with PyStr s => str_eqb s k | _ => false end.

(** [k in v] for a string [k]: key of a dict, element of a list, substring
    of a string; the other values are not containers. *)
Definition py_in (k : str) (v : pyobj) : raising bool :=
  match v with
  | PyDict items => ret (bool_decide (is_Some (lookup_key items k)))
  | PyList items => ret (existsb (is_str k) items)
  | PyStr s => ret (contains s k)
  | PyNone | PyBool _ | PyInt _ | PyFloat _ => raise TypeError
  end.

(** [v[k]] for a string [k]. *)
Definition subscript_str (v : pyobj) (k : str) : raising pyobj :=
  match v with
  | PyDict items =>
      match lookup_key items k with
      | Some x => ret x
      | None => raise KeyError
      end
  | _ => raise TypeError
  end.

(** [v[0]]; the keys of a parsed object are strings, never [0]. *)
Definition subscript_0 (v : pyobj) : raising pyobj :=
  match v with
  | PyList (x :: _) => ret x
  | PyStr (c :: _) => ret (PyStr [c])
  | PyList [] | PyStr [] => raise IndexError
  | PyDict _ => raise KeyError
  | PyNone | PyBool _ | PyInt _ | PyFloat _ => raise TypeError
  end.

(** [v.get(k, fallback)] *)
Definition get (v : pyobj) (k : str) (fallback : pyobj) : raising pyobj :=
  match v with
  | PyDict items => ret (from_option (λ x, x) fallback (lookup_key items k))
  | _ => raise AttributeError
  end.

(** [v.strip()] *)
Definition strip_method (v : pyobj) : raising str :=
  match v with
  | PyStr s => ret (strip s)
  | _ => raise AttributeError
  end.

Definition no_analysis : str := lit "No analysis available".
Definition choices : str := lit "choices".

(** The [return] of the [try] block:
    [result["choices"][0].get("text", "No analysis available").strip()
     if "choices" in result and result["choices"]
     else "No analysis available"]. *)
Definition extract_analysis (result : pyobj) : raising str :=
  (has_choices <- py_in choices result;;
   nonempty <- (if has_choices
                then c <- subscript_str result choices;; ret (truthy c)
                else ret false);;
   if nonempty then
     c <- subscript_str result choices;;
     first <- subscript_0 c;;
     text <- get first (lit "text") (PyStr no_analysis);;
     strip_method text
   else ret no_analysis)%raising.

(** How the exchange with the completion endpoint went: [requests.post]
    raised, [raise_for_status] raised, [response.json()] raised, or the
    body was parsed. *)
Inductive exchange : Type :=
  | Failed (e : http_error)
  | Parsed (result : pyobj).

Definition try_block (x : exchange) : raising str :=
  match x with
  | Failed e => inl (Requests e)
  | Parsed result => extract_analysis result
  end.

(** What [query_llm] does: it returns the analysis, or raises one of its
    two reports, each quoting the exception it caught. *)
Inductive outcome : Type :=
  | Return (analysis : str)
  | Raise_failed_to_connect (e : exn)
  | Raise_error_processing (e : exn).

Definition query_llm (x : exchange) : outcome :=
  match try_block x with
  | inr analysis => Return analysis
  | inl e =>
      if is_RequestException e then Raise_failed_to_connect e
      else Raise_error_processing e
  end.

(** ** Saving a diary entry ([DataValidator.validate_entry],
    [DiaryApp.save_json], [DiaryApp.save_diary_entry]) *)

(** [bool(entry.strip())] *)
Definition validate_entry (entry : str) : bool := truthy_str (strip entry).

Inductive dialog : Type :=
  | critical (title message : str)
  | information (title message : str).

Definition show_error (message : str) : dialog :=
  critical (lit "Error") message.

(** The files on disk, by name, with their text. *)
Abbreviation disk := (gmap (list N) (list N)).

(** How a write went: it replaced the file, or it raised and left the file
    in the state the failed write left behind (absent, or with some
    text). *)
Inductive write : Type :=
  | Written
  | WriteFailed (e : str) (remains : option (list N)).

Section Persistence.

(** [json.dump(data, file, ensure_ascii=False, indent=2)], as the text it
    writes. *)
Variable json_dump : dict str → str.

Definition save_json (data : dict str) (filename : str) (w : write)
    (fs : disk) : disk * list dialog :=
  match w with
  | Written => (<[filename := json_dump data]> fs, [])
  | WriteFailed e remains =>
      (match remains with
       | Some text => <[filename := text]> fs
       | None => delete filename fs
       end,
       [show_error (lit "Error saving " ++ filename ++ lit ": " ++ e)])
  end.

(** The operation reads the timestamp and the text from the form; it
    changes the window's mappings and the disk, and shows dialogs.
    (Calendar highlighting is presentation only.) *)
Definition save_diary_entry (self : DiaryApp) (datetime_str entry : str)
    (w : write) (fs : disk) : DiaryApp * disk * list dialog :=
  if validate_entry entry then
    let self' :=
      {| diary_entries := setitem (diary_entries self) datetime_str entry;
         calendar_events := calendar_events self |} in
    let '(fs', errors) :=
      save_json (diary_entries self') (lit "diary_entries.json") w fs in
    (self', fs',
     errors ++ [information (lit "Success")
                  (lit "Diary entry saved successfully.")])
  else
    (self, fs, [show_error (lit "Diary entry cannot be empty.")]).

(** [bool(datetime_str and description.strip())]: [and] gives its left
    operand when that is empty, its right operand otherwise. *)
Definition validate_event (datetime_str description : str) : bool :=
  truthy_str
    (if truthy_str datetime_str then strip description else datetime_str).

(** The operation reads the timestamp and the description from the form
    ([text] is what the description field holds); besides the mappings,
    the disk and the dialogs it gives the text the description field
    holds afterwards. *)
Definition save_calendar_event (self : DiaryApp) (datetime_str text : str)
    (w : write) (fs : disk) : DiaryApp * disk * list dialog * str :=
  let description := strip text in
  if validate_event datetime_str description then
    let self' :=
      {| diary_entries := diary_entries self;
         calendar_events :=
           setitem (calendar_events self) datetime_str description |} in
    let '(fs', errors) :=
      save_json (calendar_events self') (lit "calendar_events.json") w fs in
    (self', fs',
     errors ++ [information (lit "Success")
                  (lit "Event saved successfully.")],
     lit "")
  else
    (self, fs, [show_error (lit "Event description cannot be empty.")], text).

End Persistence.

(** ** Loading a document ([DiaryApp.load_json]) *)


Section Loading.

(** [json.load], from the text of the file to the value it holds, or to
    the message of the error it raises. *)
Variable json_load : str → str + pyobj.


End Loading.

(** ** Showing a day ([DiaryApp.load_selected_date_content]) *)

(** [QTime.toString("HH:mm")] *)
Definition QTime_toString_HH_mm (msecs : Z) : str :=
  Qt.decimal 2 (msecs / 3600000) ++ lit ":"
  ++ Qt.decimal 2 (msecs / 60000 mod 60).

(** [[f"{dt}: {text}" for dt, text in d.items() if dt.startswith(date)]] *)
Definition lines_for_date (d : dict str) (date : str) : list str :=
  (λ kv, kv.1 ++ lit ": " ++ kv.2)
    <$> List.filter (λ kv, startswith kv.1 date) d.

(** ["\n".join(lines) if lines else placeholder] *)
Definition text_or (lines : list str) (placeholder : str) : str :=
  match lines with
  | [] => placeholder
  | _ :: _ => join nl lines
  end.

(** What the operation hands to the three widgets. *)
Record day_content : Type :=
  { diary_entry_setText : str;
    events_display_setText : str;
    event_datetime_input_setDateTime : Qt.QDateTime }.

(** [selected] is the day selected in the calendar, [current_time] the
    time of day at the call. *)
Definition load_selected_date_content (self : DiaryApp)
    (selected current_time : Z) : day_content :=
  let date := Qt.toString_date selected in
  let datetime_str := date ++ lit " " ++ QTime_toString_HH_mm current_time in
  {| diary_entry_setText :=
       text_or (lines_for_date (diary_entries self) date)
         (lit "No diary entries for this date.");
     events_display_setText :=
       text_or (lines_for_date (calendar_events self) date)
         (lit "No events for this date.");
     event_datetime_input_setDateTime := Qt.fromString datetime_str |}.

(** ** Running an analysis ([DiaryApp.fetch_closest_events],
    [LLMQuery.run], [DiaryApp.display_analysis_result])

    The request runs on a thread of its own; what is modelled is the
    state of the two widgets once the request is over. *)

Record analysis_widgets : Type :=
  { progress_bar_visible : bool; analysis_label : str }.

Definition display_analysis_result (result : str) (ui : analysis_widgets)
    : analysis_widgets :=
  {| progress_bar_visible := false; analysis_label := result |}.

Section Run.

(** [str(e)] for the error Python raises while it reads a decoded body. *)
Variable describe : pyobj → builtin_error → str.

Definition str_of_exn (x : exchange) (e : exn) : str :=
  match e with
  | Requests (ConnectionError m) | Requests (Timeout m)
  | Requests (HTTPError m) | Requests (JSONDecodeError m) => m
  | Builtin b =>
      match x with Parsed result => describe result b | Failed _ => [] end
  end.

(** [LLMQuery.run]: the text goes to the label through [result_ready], an
    exception to an error dialog. *)
Definition run (x : exchange) (ui : analysis_widgets)
    : analysis_widgets * list dialog :=
  match query_llm x with
  | Return analysis => (display_analysis_result analysis ui, [])
  | Raise_failed_to_connect e =>
      (ui, [show_error (lit "Error analyzing events: "
                        ++ lit "Failed to connect to LLM: "
                        ++ str_of_exn x e)])
  | Raise_error_processing e =>
      (ui, [show_error (lit "Error analyzing events: "
                        ++ lit "Error processing LLM response: "
                        ++ str_of_exn x e)])
  end.

(** [fetch_closest_events]: the prompt that goes out, and the progress
    bar switched on. *)
Definition fetch_closest_events (self : DiaryApp) (now : Qt.QDateTime)
    (ui : analysis_widgets) : str * analysis_widgets :=
  (prompt (prepare_rag_context Qt.fromString self now),
   {| progress_bar_visible := true; analysis_label := analysis_label ui |}).

End Run.


(** ** Vocabulary of the properties *)

(** [t] is [s] without its leading and trailing whitespace: [s] is [t]
    between two runs of whitespace, and [t] neither starts nor ends with a
    whitespace character. *)
Definition trimmed (s t : str) : Prop :=
  ∃ l r, s = l ++ t ++ r ∧
    forallb isspace l = true ∧ forallb isspace r = true ∧
    (∀ c t', t = c :: t' → isspace c = false) ∧
    (∀ t' c, t = t' ++ [c] → isspace c = false).

(** The decoded bodies the request can read: an object without a
    ["choices"] entry or with an empty one, an object whose first choice
    is an object with no ["text"] or with a string there, and a list or a
    string in which ["choices"] does not occur. *)
Definition readable (result : pyobj) : bool :=
  match result with
  | PyDict items =>
      match lookup_key items choices with
      | None => true
      | Some c =>
          negb (truthy c) ||
          match c with
          | PyList (PyDict first :: _) =>
              match lookup_key first (lit "text") with
              | None | Some (PyStr _) => true
              | Some _ => false
              end
          | _ => false
          end
      end
  | PyList items => negb (existsb (is_str choices) items)
  | PyStr s => negb (contains s choices)
  | PyNone | PyBool _ | PyInt _ | PyFloat _ => false
  end.

(** * Properties *)

(** ** The order on strings *)

Lemma str_ltb_irrefl a : str_ltb a a = false.
Proof.
  induction a as [|x a IH]; simpl; [done|].
  by rewrite N.ltb_irrefl.
Qed.

Lemma str_ltb_asym a b : str_ltb a b = true → str_ltb b a = false.
Proof.
  revert b; induction a as [|x a IH]; intros [|y b]; simpl; try done.
  destruct (N.ltb_spec x y), (N.ltb_spec y x); try done; try lia.
  apply IH.
Qed.

Lemma str_ltb_trans a b c :
  str_ltb a b = true → str_ltb b c = true → str_ltb a c = true.
Proof.
  revert b c; induction a as [|x a IH]; intros [|y b] [|z c]; simpl;
    try done.
  destruct (N.ltb_spec x y), (N.ltb_spec y x), (N.ltb_spec y z),
    (N.ltb_spec z y), (N.ltb_spec x z), (N.ltb_spec z x);
    try done; try lia.
  apply IH.
Qed.

(** Two strings that are not below one another are the same string. *)
Lemma str_ltb_antisym a b :
  str_ltb a b = false → str_ltb b a = false → a = b.
Proof.
  revert b; induction a as [|x a IH]; intros [|y b]; simpl; try done.
  destruct (N.ltb_spec x y), (N.ltb_spec y x); try done.
  intros Hab Hba. assert (x = y) as -> by lia. f_equal. by apply IH.
Qed.

Lemma str_le_refl a : str_le a a.
Proof. unfold str_le, str_leb. by rewrite str_ltb_irrefl. Qed.

Lemma str_le_total a b : str_le a b ∨ str_le b a.
Proof.
  unfold str_le, str_leb.
  destruct (str_ltb b a) eqn:Hba; [right|by left].
  by rewrite (str_ltb_asym _ _ Hba).
Qed.

Lemma str_lt_le a b : str_ltb a b = true → str_le a b.
Proof. intros H. unfold str_le, str_leb. by rewrite (str_ltb_asym _ _ H). Qed.

Lemma str_le_trans a b c : str_le a b → str_le b c → str_le a c.
Proof.
  unfold str_le, str_leb. rewrite !negb_true_iff. intros Hba Hcb.
  destruct (str_ltb c a) eqn:Hca; [|done].
  destruct (str_ltb a b) eqn:Hab.
  - by rewrite (str_ltb_trans _ _ _ Hca Hab) in Hcb.
  - assert (a = b) as -> by by apply str_ltb_antisym.
    by rewrite Hca in Hcb.
Qed.

#[local] Instance str_le_transitive : Transitive str_le := str_le_trans.

(** ** The stable sort *)

Section SortFacts.
Context {A : Type} (key : A → str).

#[local] Instance key_le_transitive : Transitive (key_le key).
Proof. intros x y z. apply str_le_trans. Qed.

Lemma insert_by_perm x l : insert_by key x l ≡ₚ x :: l.
Proof.
  induction l as [|y l IH]; simpl; [done|].
  case_match; [|done].
  rewrite IH. apply Permutation_swap.
Qed.

Lemma sorted_by_perm l : sorted_by key l ≡ₚ l.
Proof.
  induction l as [|x l IH]; simpl; [done|].
  by rewrite insert_by_perm, IH.
Qed.

Lemma elem_of_sorted_by x l : x ∈ sorted_by key l ↔ x ∈ l.
Proof. by rewrite sorted_by_perm. Qed.

Lemma insert_by_sorted x l :
  StronglySorted (key_le key) l → StronglySorted (key_le key) (insert_by key x l).
Proof.
  induction 1 as [|y l Hl IH Hy]; simpl.
  - repeat constructor.
  - destruct (str_ltb (key y) (key x)) eqn:Hlt.
    + constructor; [done|].
      rewrite insert_by_perm. constructor; [|done].
      by apply str_lt_le.
    + assert (key_le key x y) as Hxy.
      { unfold key_le, str_le, str_leb. by rewrite Hlt. }
      constructor; [by constructor|].
      constructor; [done|].
      eapply Forall_impl; [exact Hy|]. intros z Hz. by etrans.
Qed.

Lemma sorted_by_sorted l : StronglySorted (key_le key) (sorted_by key l).
Proof.
  induction l as [|x l IH]; simpl; [constructor|by apply insert_by_sorted].
Qed.

Lemma sorted_by_keys l :
  StronglySorted str_le (key <$> sorted_by key l).
Proof.
  pose proof (sorted_by_sorted l) as H.
  induction H as [|y l' Hl IH Hy]; simpl; constructor; [done|].
  by apply Forall_fmap.
Qed.

(** The sort is stable: the elements of one key keep their order. *)
Lemma insert_by_stable k x l :
  filter (λ y, key y = k) (insert_by key x l) =
  filter (λ y, key y = k) (x :: l).
Proof.
  induction l as [|y l IH]; simpl; [done|].
  destruct (str_ltb (key y) (key x)) eqn:Hlt; [|done].
  rewrite !filter_cons in *. rewrite IH.
  destruct (decide (key y = k)) as [Hy|?], (decide (key x = k)) as [Hx|?];
    try done.
  rewrite Hy, Hx, str_ltb_irrefl in Hlt. done.
Qed.

Lemma sorted_by_stable k l :
  filter (λ y, key y = k) (sorted_by key l) = filter (λ y, key y = k) l.
Proof.
  induction l as [|x l IH]; simpl; [done|].
  by rewrite insert_by_stable, !filter_cons, IH.
Qed.

(** A list already in non-decreasing order of its keys is left as it is. *)
Lemma sorted_by_id l : Sorted (key_le key) l → sorted_by key l = l.
Proof.
  induction 1 as [|x l Hl IH Hx]; simpl; [done|].
  rewrite IH. destruct Hx as [|y l Hxy]; simpl; [done|].
  unfold key_le, str_le, str_leb in Hxy.
  apply negb_true_iff in Hxy. by rewrite Hxy.
Qed.

End SortFacts.

(** ** Stripping whitespace *)

Lemma lstrip_spaces s : forallb isspace s = true → lstrip s = [].
Proof.
  induction s as [|c s IH]; simpl; [done|].
  intros [Hc Hs]%andb_true_iff. rewrite Hc. by apply IH.
Qed.

Lemma strip_spaces s : forallb isspace s = true → strip s = [].
Proof. intros H. unfold strip. by rewrite (lstrip_spaces s). Qed.

Lemma lstrip_spec s :
  ∃ l, s = l ++ lstrip s ∧ forallb isspace l = true ∧
    ∀ c t, lstrip s = c :: t → isspace c = false.
Proof.
  induction s as [|c s (l & Hs & Hl & Hhead)]; simpl.
  - by exists [].
  - destruct (isspace c) eqn:Hc.
    + exists (c :: l). simpl. rewrite Hc, Hl, <- Hs. done.
    + exists []. repeat split; [done..|]. by intros ? ? [= <- _].
Qed.

Lemma forallb_rev {A} (f : A → bool) l : forallb f (rev l) = forallb f l.
Proof.
  induction l as [|x l IH]; simpl; [done|].
  rewrite forallb_app, IH. simpl. by rewrite andb_true_r, andb_comm.
Qed.

(** [strip] removes the leading and the trailing whitespace, and nothing
    else. *)
Lemma strip_trimmed s : trimmed s (strip s).
Proof.
  destruct (lstrip_spec s) as (l & Hs & Hl & Hhead).
  destruct (lstrip_spec (rev (lstrip s))) as (r & Hr & Hrs & Hlast).
  assert (lstrip s = strip s ++ rev r) as Ht.
  { unfold strip, rstrip. rewrite <- rev_app_distr, <- Hr.
    by rewrite rev_involutive. }
  exists l, (rev r). split; [by rewrite <- Ht|].
  split; [done|]. split; [by rewrite forallb_rev|]. split.
  - intros c t' Hc. apply (Hhead c (t' ++ rev r)). by rewrite Ht, Hc.
  - intros t' c Hc. apply (Hlast c (rev t')).
    unfold strip, rstrip in Hc. apply (f_equal (@rev _)) in Hc.
    by rewrite rev_involutive, rev_app_distr in Hc.
Qed.

(** ** The context builder *)

Section ContextBuilderFacts.
Variable parse : str → Qt.QDateTime.
Variable self : DiaryApp.
Variable now : Qt.QDateTime.

Lemma elem_of_recent_loop items acc x :
  x ∈ foldl (recent_step parse now) acc items ↔
  x ∈ acc ∨
  ∃ k v, (k, v) ∈ items ∧ -7 ≤ Qt.daysTo (parse k) now ≤ 0 ∧
    x = {| Recent.datetime := k; Recent.content := v;
           Recent.days_ago := Z.abs (Qt.daysTo (parse k) now) |}.
Proof.
  revert acc; induction items as [|[k v] items IH]; intros acc; simpl.
  - split; [by left|]. intros [?|(? & ? & H & _)]; [done|].
    by apply elem_of_nil in H.
  - rewrite IH. clear IH.
    destruct (Z.leb_spec (-7) (Qt.daysTo (parse k) now)),
      (Z.leb_spec (Qt.daysTo (parse k) now) 0); simpl;
      rewrite ?elem_of_app, ?list_elem_of_singleton;
      (split;
       [ intros [H'|(k' & v' & Hin & Hd & ->)];
         [ try destruct H' as [H'| ->]; eauto 8 using list_elem_of_here
         | eauto 8 using list_elem_of_further ]
       | intros [H'|(k' & v' & [[= -> ->]|Hin]%elem_of_cons & Hd & ->)];
         eauto 8; lia ]).
Qed.

Lemma elem_of_upcoming_loop items acc x :
  x ∈ foldl (upcoming_step parse now) acc items ↔
  x ∈ acc ∨
  ∃ k v, (k, v) ∈ items ∧ 0 ≤ Qt.daysTo now (parse k) ≤ 14 ∧
    x = {| Upcoming.datetime := k; Upcoming.event := v;
           Upcoming.days_until := Qt.daysTo now (parse k);
           Upcoming.is_urgent := Qt.daysTo now (parse k) <=? 3 |}.
Proof.
  revert acc; induction items as [|[k v] items IH]; intros acc; simpl.
  - split; [by left|]. intros [?|(? & ? & H & _)]; [done|].
    by apply elem_of_nil in H.
  - rewrite IH. clear IH.
    destruct (Z.leb_spec 0 (Qt.daysTo now (parse k))),
      (Z.leb_spec (Qt.daysTo now (parse k)) 14); simpl;
      rewrite ?elem_of_app, ?list_elem_of_singleton;
      (split;
       [ intros [H'|(k' & v' & Hin & Hd & ->)];
         [ try destruct H' as [H'| ->]; eauto 8 using list_elem_of_here
         | eauto 8 using list_elem_of_further ]
       | intros [H'|(k' & v' & [[= -> ->]|Hin]%elem_of_cons & Hd & ->)];
         eauto 8; lia ]).
Qed.

(** What the builder puts in [recent_events]: the entries whose day
    difference TO [now] is between -7 and 0. *)
Lemma recent_events_spec x :
  x ∈ Rag.recent_events (prepare_rag_context parse self now) ↔
  ∃ k v, (k, v) ∈ diary_entries self ∧
    -7 ≤ Qt.daysTo (parse k) now ≤ 0 ∧
    x = {| Recent.datetime := k; Recent.content := v;
           Recent.days_ago := Z.abs (Qt.daysTo (parse k) now) |}.
Proof.
  simpl. rewrite elem_of_sorted_by, elem_of_recent_loop.
  split; [intros [H|H]; [by apply elem_of_nil in H|done]|by right].
Qed.

Lemma upcoming_events_spec x :
  x ∈ Rag.upcoming_events (prepare_rag_context parse self now) ↔
  ∃ k v, (k, v) ∈ calendar_events self ∧
    0 ≤ Qt.daysTo now (parse k) ≤ 14 ∧
    x = {| Upcoming.datetime := k; Upcoming.event := v;
           Upcoming.days_until := Qt.daysTo now (parse k);
           Upcoming.is_urgent := Qt.daysTo now (parse k) <=? 3 |}.
Proof.
  simpl. rewrite elem_of_sorted_by, elem_of_upcoming_loop.
  split; [intros [H|H]; [by apply elem_of_nil in H|done]|by right].
Qed.

End ContextBuilderFacts.

(** In calendar terms the entries kept as recent are those dated from the
    day of [now] to seven days after it. *)
Lemma recent_window_in_days parse self jd_now ms key entry jd_entry ms' :
  (key, entry) ∈ diary_entries self →
  parse key = Qt.DateTime jd_entry ms' →
  (∃ x, x ∈ Rag.recent_events
            (prepare_rag_context parse self (Qt.DateTime jd_now ms)) ∧
        Recent.datetime x = key ∧ Recent.content x = entry) ↔
  jd_now ≤ jd_entry ≤ jd_now + 7.
Proof.
  intros Hin Hparse. split.
  - intros (x & Hx & <- & <-). apply recent_events_spec in Hx.
    destruct Hx as (k & v & _ & Hd & ->). simpl in *.
    rewrite Hparse in Hd. simpl in Hd. lia.
  - intros Hd. eexists. split.
    + apply recent_events_spec. exists key, entry.
      rewrite Hparse. simpl. split; [done|]. split; [lia|done].
    + done.
Qed.

(** ** The calendar: Julian days grow with the date *)

Module QtFacts.
Import Qt.

Example julian_day_2000 : julianFromParts 2000 1 1 = Some 2451545.
Proof. reflexivity. Qed.

Example no_29_february_2023 : fromString (lit "2023-02-29 09:00") = Invalid.
Proof. reflexivity. Qed.

Example key_read_back :
  toString (fromString (lit "2024-02-29 23:59")) yyyy_MM_dd_HH_mm
  = lit "2024-02-29 23:59".
Proof. reflexivity. Qed.

Example date_range_of_10_june :
  let now := fromString (lit "2024-06-10 09:00") in
  toString (addDays now (-7)) yyyy_MM_dd = lit "2024-06-03" ∧
  toString (addDays now 14) yyyy_MM_dd = lit "2024-06-24".
Proof. by vm_compute. Qed.

Ltac divlia := Z.div_mod_to_equations; lia.

Ltac each_month m :=
  let H := fresh in
  assert (m = 1 ∨ m = 2 ∨ m = 3 ∨ m = 4 ∨ m = 5 ∨ m = 6 ∨ m = 7 ∨ m = 8
          ∨ m = 9 ∨ m = 10 ∨ m = 11 ∨ m = 12) as H by lia;
  repeat (destruct H as [->|H]); [..|subst m].

Lemma validParts_bounds year month day :
  validParts year month day = true →
  year ≠ 0 ∧ 1 ≤ month ≤ 12 ∧ 1 ≤ day ≤ monthLength month year.
Proof.
  unfold validParts, monthLength.
  rewrite !andb_true_iff, negb_true_iff, Z.eqb_neq, Z.ltb_lt, Z.leb_le.
  destruct (Z.ltb_spec month 1), (Z.ltb_spec 12 month); simpl; lia.
Qed.

Lemma monthLength_cases month year :
  1 ≤ month ≤ 12 →
  monthLength month year =
    if month =? 2 then (if leapTest year then 29 else 28)
    else if (month =? 4) || (month =? 6) || (month =? 9) || (month =? 11)
         then 30 else 31.
Proof. intros H. each_month month; reflexivity. Qed.

(** Within the years after 0, every date of a year lies between its
    1 January and its 31 December. *)
Lemma julian_year_bounds year month day jd :
  0 < year → julianFromParts year month day = Some jd →
  let f y := 365 * y + y / 4 - y / 100 + y / 400 in
  (f (year + 4799) + 307 - 32045 ≤ jd ≤ f (year + 4800) + 306 - 32045).
Proof.
  intros Hy. unfold julianFromParts.
  destruct (validParts year month day) eqn:Hv; [|done].
  apply validParts_bounds in Hv as (_ & Hm & Hd).
  rewrite monthLength_cases in Hd by done.
  assert ((year <? 0) = false) as -> by lia.
  intros [= <-]. simpl.
  assert (1 ≤ day ≤ 31) by (repeat case_match; lia). clear Hd.
  each_month month; simpl; divlia.
Qed.

(** A later year, a later month of the same year or a later day of the same
    month has a greater Julian day. *)
Lemma julian_lt y m d jd y' m' d' jd' :
  0 < y → 0 < y' →
  julianFromParts y m d = Some jd → julianFromParts y' m' d' = Some jd' →
  y < y' ∨ y = y' ∧ (m < m' ∨ m = m' ∧ d < d') →
  jd < jd'.
Proof.
  intros Hy Hy' Hj Hj' [Hlt|[<- Hlt]].
  - pose proof (julian_year_bounds _ _ _ _ Hy Hj) as Hb.
    pose proof (julian_year_bounds _ _ _ _ Hy' Hj') as Hb'.
    simpl in Hb, Hb'. divlia.
  - revert Hj Hj'. unfold julianFromParts.
    destruct (validParts y m d) eqn:Hv; [|done].
    destruct (validParts y m' d') eqn:Hv'; [|done].
    apply validParts_bounds in Hv as (_ & Hm & Hd).
    apply validParts_bounds in Hv' as (_ & Hm' & Hd').
    rewrite monthLength_cases in Hd, Hd' by done.
    unfold leapTest in Hd, Hd'.
    assert ((y <? 0) = false) as -> by lia.
    assert ((y <? 1) = false) as Hy1 by lia. rewrite Hy1 in Hd, Hd'.
    intros [= <-] [= <-].
    destruct Hlt as [Hlt|[<- Hlt]]; [|lia].
    assert (1 ≤ d') as Hd1 by lia. clear Hd'.
    each_month m; simpl in Hd; each_month m'; try lia; simpl;
      lazymatch type of Hd with
      | context [if _ then _ else _] =>
          destruct (y mod 4 =? 0) eqn:H4, (y mod 100 =? 0) eqn:H100,
            (y mod 400 =? 0) eqn:H400; simpl in Hd
      | _ => idtac
      end; divlia.
Qed.

(** Two dates of years after 0 are in the order of their Julian days. *)
Lemma julian_order y m d jd y' m' d' jd' :
  0 < y → 0 < y' →
  julianFromParts y m d = Some jd → julianFromParts y' m' d' = Some jd' →
  (jd < jd' ↔ y < y' ∨ y = y' ∧ (m < m' ∨ m = m' ∧ d < d')) ∧
  (jd = jd' ↔ y = y' ∧ m = m' ∧ d = d').
Proof.
  intros Hy Hy' Hj Hj'.
  pose proof (julian_lt _ _ _ _ _ _ _ _ Hy Hy' Hj Hj') as Hlt.
  pose proof (julian_lt _ _ _ _ _ _ _ _ Hy' Hy Hj' Hj) as Hgt.
  assert (y = y' ∧ m = m' ∧ d = d' → jd = jd') as Heq.
  { intros (-> & -> & ->). congruence. }
  split; split; try done; lia.
Qed.

(** *** Timestamp keys *)

Lemma digit_inv c d :
  digit c = Some d → (48 ≤ c ≤ 57)%N ∧ d = Z.of_N c - 48.
Proof.
  unfold digit. destruct (N.leb_spec 48 c), (N.leb_spec c 57); simpl;
    intros [= <-]; lia.
Qed.

Ltac digits H :=
  repeat match type of H with
    | context [digit ?c] =>
        let d := fresh "d" in
        let Hd := fresh "Hd" in
        destruct (digit c) as [d|] eqn:Hd; simpl in H; [|done];
        apply digit_inv in Hd as [? ->]
    end.

(** The fields of a key are bounded by their widths. *)
Lemma fields_bounds s year month day hour minute :
  fields s = Some (year, month, day, hour, minute) →
  0 ≤ year ≤ 9999 ∧ 0 ≤ month ≤ 99 ∧ 0 ≤ day ≤ 99 ∧
  0 ≤ hour ≤ 99 ∧ 0 ≤ minute ≤ 99.
Proof.
  unfold fields. intros H.
  repeat (destruct s as [|? s]; [done|]). destruct s; [|done].
  case_bool_decide; [|done].
  unfold number in H. simpl in H. digits H.
  injection H as <- <- <- <- <-. lia.
Qed.

(** Two keys are in the order of their fields, read from the year down to
    the minute. *)
Lemma fields_order s y m d h n s' y' m' d' h' n' :
  fields s = Some (y, m, d, h, n) →
  fields s' = Some (y', m', d', h', n') →
  (str_ltb s s' = true ↔
   y < y' ∨ y = y' ∧ (m < m' ∨ m = m' ∧ (d < d' ∨ d = d' ∧
     (h < h' ∨ h = h' ∧ n < n')))).
Proof.
  unfold fields. intros H H'.
  repeat (destruct s as [|? s]; [done|]). destruct s; [|done].
  repeat (destruct s' as [|? s']; [done|]). destruct s'; [|done].
  case_bool_decide as Hs; [|done]. injection Hs as -> -> -> ->.
  case_bool_decide as Hs'; [|done]. injection Hs' as -> -> -> ->.
  unfold number in H, H'. simpl in H, H'. digits H. digits H'.
  injection H as <- <- <- <- <-. injection H' as <- <- <- <- <-.
  simpl.
  repeat match goal with
    | |- context [(?a <? ?b)%N] => destruct (N.ltb_spec a b)
    end; try lia.
Qed.

Lemma fromString_inv s jd ms :
  fromString s = DateTime jd ms →
  ∃ y m d h n, fields s = Some (y, m, d, h, n) ∧ 0 < y ∧
    julianFromParts y m d = Some jd ∧
    0 ≤ h < 24 ∧ 0 ≤ n < 60 ∧ ms = (h * 60 + n) * 60000.
Proof.
  unfold fromString. intros H.
  destruct (fields s) as [[[[[y m] d] h] n]|] eqn:Hf; [|done].
  destruct (Z.ltb_spec h 24), (Z.ltb_spec n 60); simpl in H; try done.
  destruct (julianFromParts y m d) as [j|] eqn:Hj; [|done].
  injection H as <- <-.
  pose proof (fields_bounds _ _ _ _ _ _ Hf).
  assert (y ≠ 0).
  { unfold julianFromParts in Hj.
    destruct (validParts y m d) eqn:Hv; [|done].
    by apply validParts_bounds in Hv as (? & _). }
  exists y, m, d, h, n. repeat split; try done; lia.
Qed.

(** On timestamp keys the order of the strings is the order in time. *)
Lemma key_order_chronological s jd ms s' jd' ms' :
  fromString s = DateTime jd ms → fromString s' = DateTime jd' ms' →
  str_le s s' ↔ jd < jd' ∨ jd = jd' ∧ ms ≤ ms'.
Proof.
  intros (y & m & d & h & n & Hf & Hy & Hj & Hh & Hn & ->)%fromString_inv
         (y' & m' & d' & h' & n' & Hf' & Hy' & Hj' & Hh' & Hn' & ->)
           %fromString_inv.
  pose proof (fields_order _ _ _ _ _ _ _ _ _ _ _ _ Hf' Hf) as Hlt.
  destruct (julian_order _ _ _ _ _ _ _ _ Hy Hy' Hj Hj') as [Hjlt Hjeq].
  unfold str_le, str_leb. rewrite negb_true_iff.
  destruct (str_ltb s' s); split; intros H; try done; lia.
Qed.
End QtFacts.

(** * The claims *)

(** ** Context builder *)

(** C1.  The claim asks for the diary entries of the past week (from seven
    days before [now] up to [now]), each with [days_ago] the absolute day
    difference.  The builder takes the day difference from the entry to
    [now] and keeps it when it lies in [-7, 0], which holds for entries
    dated from today to seven days ahead.  At [now = 2024-06-10 09:00] the
    entries of 3 June (7 days before) and 9 June (1 day before) are both
    dropped, and an entry dated 12 June is kept with [days_ago = 2]. *)
Theorem C1_past_week_entries_dropped :
  let now := Qt.fromString (lit "2024-06-10 09:00") in
  let self :=
    {| diary_entries :=
         [ (lit "2024-06-03 08:00", lit "ok");
           (lit "2024-06-09 20:00", lit "fine");
           (lit "2024-06-12 07:30", lit "later") ];
       calendar_events := [] |} in
  Qt.daysTo (Qt.fromString (lit "2024-06-03 08:00")) now = 7 ∧
  Qt.daysTo (Qt.fromString (lit "2024-06-09 20:00")) now = 1 ∧
  Rag.recent_events (prepare_rag_context Qt.fromString self now) =
    [ {| Recent.datetime := lit "2024-06-12 07:30";
         Recent.content := lit "later";
         Recent.days_ago := 2 |} ].
Proof. by vm_compute. Qed.

(** C2, as stated, fails: a key that does not read as a timestamp is not
    left out of the two sequences. *)
Lemma C2_malformed_key_included :
  let key := lit "not a timestamp" in
  let self :=
    {| diary_entries := [(key, lit "note")];
       calendar_events := [(key, lit "party")] |} in
  let ctx :=
    prepare_rag_context Qt.fromString self
      (Qt.fromString (lit "2024-06-10 09:00")) in
  Qt.isValid (Qt.fromString key) = false ∧
  ¬ ((key ∉ (Recent.datetime <$> Rag.recent_events ctx)) ∧
     (key ∉ (Upcoming.datetime <$> Rag.upcoming_events ctx))).
Proof.
  split; [by vm_compute|]. intros [H _]. apply H. vm_compute. by left.
Qed.

(** C2, amended.  The builder is a total function, so a key that does not
    read as a timestamp never stops it; the key's day difference is 0, and
    the key is therefore kept in both sequences: in [recent_events] with
    [days_ago = 0], in [upcoming_events] with [days_until = 0] and
    [is_urgent] set. *)
Theorem C2_malformed_key_kept parse self now key :
  Qt.isValid (parse key) = false →
  let ctx := prepare_rag_context parse self now in
  (∀ entry, (key, entry) ∈ diary_entries self →
     {| Recent.datetime := key; Recent.content := entry;
        Recent.days_ago := 0 |} ∈ Rag.recent_events ctx) ∧
  (∀ event, (key, event) ∈ calendar_events self →
     {| Upcoming.datetime := key; Upcoming.event := event;
        Upcoming.days_until := 0; Upcoming.is_urgent := true |}
       ∈ Rag.upcoming_events ctx).
Proof.
  intros Hinvalid ctx.
  assert (parse key = Qt.Invalid) as Hkey.
  { by destruct (parse key). }
  split.
  - intros entry Hin. apply recent_events_spec. exists key, entry.
    rewrite Hkey. simpl. split; [done|]. split; [lia|done].
  - intros event Hin. apply upcoming_events_spec. exists key, event.
    rewrite Hkey. destruct now; simpl; (split; [done|]); (split; [lia|done]).
Qed.

Lemma C2_malformed_key_kept_witness :
  let key := lit "not a timestamp" in
  let self :=
    {| diary_entries := [(key, lit "note")];
       calendar_events := [(key, lit "party")] |} in
  let ctx :=
    prepare_rag_context Qt.fromString self
      (Qt.fromString (lit "2024-06-10 09:00")) in
  {| Recent.datetime := key; Recent.content := lit "note";
     Recent.days_ago := 0 |} ∈ Rag.recent_events ctx ∧
  {| Upcoming.datetime := key; Upcoming.event := lit "party";
     Upcoming.days_until := 0; Upcoming.is_urgent := true |}
    ∈ Rag.upcoming_events ctx.
Proof.
  intros key self ctx.
  destruct (C2_malformed_key_kept Qt.fromString self
              (Qt.fromString (lit "2024-06-10 09:00")) key)
    as [Hrecent Hupcoming].
  - vm_compute. reflexivity.
  - split.
    + apply Hrecent. simpl. apply list_elem_of_here.
    + apply Hupcoming. simpl. apply list_elem_of_here.
Defined.

(** C3.  A calendar event is in [upcoming_events] exactly when its day
    difference from [now] lies in [0, 14]; an item of [upcoming_events]
    is an event of the mapping, carries that difference as [days_until],
    and is urgent exactly when [days_until <= 3]. *)
Theorem C3_upcoming_window parse self now :
  let ctx := prepare_rag_context parse self now in
  (∀ key event, (key, event) ∈ calendar_events self →
     (∃ x, x ∈ Rag.upcoming_events ctx ∧
           Upcoming.datetime x = key ∧ Upcoming.event x = event) ↔
     0 ≤ Qt.daysTo now (parse key) ≤ 14) ∧
  (∀ x, x ∈ Rag.upcoming_events ctx →
     (Upcoming.datetime x, Upcoming.event x) ∈ calendar_events self ∧
     Upcoming.days_until x = Qt.daysTo now (parse (Upcoming.datetime x)) ∧
     (Upcoming.is_urgent x = true ↔ Upcoming.days_until x ≤ 3)).
Proof.
  intros ctx. split.
  - intros key event Hin. split.
    + intros (x & Hx & <- & <-). apply upcoming_events_spec in Hx.
      by destruct Hx as (k & v & _ & Hd & ->).
    + intros Hd. eexists. split.
      * apply upcoming_events_spec. by exists key, event.
      * done.
  - intros x Hx. apply upcoming_events_spec in Hx.
    destruct Hx as (k & v & Hin & Hd & ->). simpl.
    split; [done|]. split; [done|]. apply Z.leb_le.
Qed.

(** The events of the scenario of 10 June: the one of 12 June is upcoming
    and urgent, the one of 1 July is 21 days away and left out. *)
Example upcoming_of_10_june :
  Rag.upcoming_events
    (prepare_rag_context Qt.fromString
       {| diary_entries := [];
          calendar_events :=
            [ (lit "2024-07-01 10:00", lit "trip");
              (lit "2024-06-12 10:00", lit "dentist") ] |}
       (Qt.fromString (lit "2024-06-10 09:00")))
  = [ {| Upcoming.datetime := lit "2024-06-12 10:00";
         Upcoming.event := lit "dentist";
         Upcoming.days_until := 2; Upcoming.is_urgent := true |} ].
Proof. by vm_compute. Qed.

(** C4.  Both sequences of the context are in non-decreasing order of
    their timestamp strings (each item is at most every later one), and on
    keys written [YYYY-MM-DD HH:MM] the order of the strings is the order
    in time: earlier day first, and within one day earlier time first. *)
Theorem C4_sorted_by_timestamp parse self now :
  let ctx := prepare_rag_context parse self now in
  StronglySorted str_le (Recent.datetime <$> Rag.recent_events ctx) ∧
  StronglySorted str_le (Upcoming.datetime <$> Rag.upcoming_events ctx) ∧
  (∀ s jd ms s' jd' ms',
     Qt.fromString s = Qt.DateTime jd ms →
     Qt.fromString s' = Qt.DateTime jd' ms' →
     str_le s s' ↔ jd < jd' ∨ jd = jd' ∧ ms ≤ ms').
Proof.
  intros ctx. split; [apply sorted_by_keys|].
  split; [apply sorted_by_keys|].
  intros. by apply QtFacts.key_order_chronological.
Qed.

Lemma C4_sorted_by_timestamp_witness :
  str_le (lit "2024-06-09 20:00") (lit "2024-06-12 10:00") ↔
  2460471 < 2460474 ∨ 2460471 = 2460474 ∧ 72000000 ≤ 36000000.
Proof.
  refine (proj2 (proj2 (C4_sorted_by_timestamp Qt.fromString
            {| diary_entries := []; calendar_events := [] |} Qt.Invalid))
          _ _ _ _ _ _ _ _).
  - vm_compute. reflexivity.
  - vm_compute. reflexivity.
Defined.

(** ** Prompt formatter *)

(** On any context the formatter renders each sequence in the order of
    its own sort by timestamp string. *)
Lemma format_rag_context_sorts context :
  ∃ entries events,
    entries ≡ₚ Rag.recent_events context ∧
    events ≡ₚ Rag.upcoming_events context ∧
    StronglySorted str_le (Recent.datetime <$> entries) ∧
    StronglySorted str_le (Upcoming.datetime <$> events) ∧
    Prompt.formatted_diary_entries (format_rag_context context) =
      join nl (diary_line <$> entries) ∧
    Prompt.formatted_calendar_events (format_rag_context context) =
      join nl (event_line <$> events).
Proof.
  exists (sorted_by Recent.datetime (Rag.recent_events context)),
    (sorted_by Upcoming.datetime (Rag.upcoming_events context)).
  repeat split; auto using sorted_by_perm, sorted_by_keys.
Qed.

Lemma StronglySorted_keys {A} (key : A → str) l :
  StronglySorted str_le (key <$> l) → Sorted (key_le key) l.
Proof.
  intros H. apply StronglySorted_Sorted.
  induction l as [|x l IH]; simpl in *; [constructor|].
  inversion_clear H as [|? ? Hl Hx].
  constructor; [by apply IH|]. by apply (Forall_fmap key) in Hx.
Qed.

(** C5, as stated, fails: two diary entries given latest first are
    rendered earliest first. *)
Lemma C5_formatter_reorders :
  let a := {| Recent.datetime := lit "2024-06-03 08:00";
              Recent.content := lit "ok"; Recent.days_ago := 7 |} in
  let b := {| Recent.datetime := lit "2024-06-09 20:00";
              Recent.content := lit "fine"; Recent.days_ago := 1 |} in
  let context :=
    {| Rag.current_datetime := lit "2024-06-10 09:00:00";
       Rag.recent_events := [b; a];
       Rag.upcoming_events := [];
       Rag.date_range :=
         {| start := lit "2024-06-03"; end_ := lit "2024-06-24" |} |} in
  Prompt.formatted_diary_entries (format_rag_context context) =
    join nl [diary_line a; diary_line b] ∧
  Prompt.formatted_diary_entries (format_rag_context context) ≠
    join nl (diary_line <$> Rag.recent_events context).
Proof. split; [by vm_compute|]. by vm_compute. Qed.

(** C5, amended.  On every context the formatter renders each sequence
    in the order of its stable sort by timestamp string: the lines are
    those of a rearrangement of the sequence that is in non-decreasing
    order of the timestamps and keeps the items of one timestamp in the
    order given.  A context whose two sequences are already in that order
    is therefore rendered in exactly the order given. *)
Theorem C5_formatter_sorts_by_timestamp context :
  let lines entries events :=
    {| Prompt.current_datetime := Rag.current_datetime context;
       Prompt.date_range := Rag.date_range context;
       Prompt.formatted_diary_entries := join nl (diary_line <$> entries);
       Prompt.formatted_calendar_events := join nl (event_line <$> events) |} in
  (∃ entries events,
     entries ≡ₚ Rag.recent_events context ∧
     events ≡ₚ Rag.upcoming_events context ∧
     StronglySorted str_le (Recent.datetime <$> entries) ∧
     StronglySorted str_le (Upcoming.datetime <$> events) ∧
     (∀ k, filter (λ x, Recent.datetime x = k) entries =
           filter (λ x, Recent.datetime x = k) (Rag.recent_events context)) ∧
     (∀ k, filter (λ x, Upcoming.datetime x = k) events =
           filter (λ x, Upcoming.datetime x = k)
             (Rag.upcoming_events context)) ∧
     format_rag_context context = lines entries events ∧
     prompt context =
       system_prompt ++ nl ++ nl ++ user_prompt (lines entries events)) ∧
  (Sorted (key_le Recent.datetime) (Rag.recent_events context) →
   Sorted (key_le Upcoming.datetime) (Rag.upcoming_events context) →
   format_rag_context context =
     lines (Rag.recent_events context) (Rag.upcoming_events context) ∧
   prompt context =
     system_prompt ++ nl ++ nl ++
     user_prompt
       (lines (Rag.recent_events context) (Rag.upcoming_events context))).
Proof.
  intros lines. split.
  - exists (sorted_by Recent.datetime (Rag.recent_events context)),
      (sorted_by Upcoming.datetime (Rag.upcoming_events context)).
    split; [apply sorted_by_perm|]. split; [apply sorted_by_perm|].
    split; [apply sorted_by_keys|]. split; [apply sorted_by_keys|].
    split; [intros k; apply sorted_by_stable|].
    split; [intros k; apply sorted_by_stable|]. done.
  - intros Hrecent Hupcoming.
    unfold prompt, format_rag_context, lines. by rewrite !sorted_by_id.
Qed.

(** The contexts of the builder are of that kind. *)
Lemma format_of_prepared_context parse self now :
  let context := prepare_rag_context parse self now in
  Prompt.formatted_diary_entries (format_rag_context context) =
    join nl (diary_line <$> Rag.recent_events context) ∧
  Prompt.formatted_calendar_events (format_rag_context context) =
    join nl (event_line <$> Rag.upcoming_events context).
Proof.
  intros context. simpl.
  rewrite (sorted_by_id Recent.datetime (sorted_by Recent.datetime _))
    by apply StronglySorted_keys, sorted_by_keys.
  by rewrite (sorted_by_id Upcoming.datetime (sorted_by Upcoming.datetime _))
    by apply StronglySorted_keys, sorted_by_keys.
Qed.

Lemma C5_formatter_sorts_by_timestamp_witness :
  let a := {| Recent.datetime := lit "2024-06-03 08:00";
              Recent.content := lit "ok"; Recent.days_ago := 7 |} in
  let b := {| Recent.datetime := lit "2024-06-09 20:00";
              Recent.content := lit "fine"; Recent.days_ago := 1 |} in
  let e := {| Upcoming.datetime := lit "2024-06-12 10:00";
              Upcoming.event := lit "dentist";
              Upcoming.days_until := 2; Upcoming.is_urgent := true |} in
  let context :=
    {| Rag.current_datetime := lit "2024-06-10 09:00:00";
       Rag.recent_events := [a; b];
       Rag.upcoming_events := [e];
       Rag.date_range :=
         {| start := lit "2024-06-03"; end_ := lit "2024-06-24" |} |} in
  format_rag_context context =
    {| Prompt.current_datetime := lit "2024-06-10 09:00:00";
       Prompt.date_range :=
         {| start := lit "2024-06-03"; end_ := lit "2024-06-24" |};
       Prompt.formatted_diary_entries :=
         join nl [diary_line a; diary_line b];
       Prompt.formatted_calendar_events := join nl [event_line e] |}.
Proof.
  intros a b e context.
  apply (proj2 (C5_formatter_sorts_by_timestamp context)).
  - simpl. repeat constructor.
  - simpl. repeat constructor.
Defined.

(** A line of the diary section, by the length of the content. *)
Lemma diary_line_cases entry :
  diary_line entry =
    lit "[" ++ Recent.datetime entry ++ lit "] "
    ++ (if (length (Recent.content entry) <=? 200)%nat
        then Recent.content entry
        else take 200 (Recent.content entry) ++ lit "...").
Proof.
  unfold diary_line.
  destruct (Nat.leb_spec (length (Recent.content entry)) 200),
    (Nat.ltb_spec 200 (length (Recent.content entry))); try lia; [|done].
  rewrite take_ge by done.
  change (lit "") with (@nil char). by rewrite app_nil_r.
Qed.

(** C6.  The diary section the formatter renders, and the prompt carries,
    has one line per diary entry, [[timestamp] ] followed by the content
    as it is when the content has at most 200 characters, and by its
    first 200 characters and ["..."] when it has more. *)
Theorem C6_truncation context :
  let rendered (entry : Recent.item) :=
    lit "[" ++ Recent.datetime entry ++ lit "] "
    ++ (if (length (Recent.content entry) <=? 200)%nat
        then Recent.content entry
        else take 200 (Recent.content entry) ++ lit "...") in
  let section :=
    join nl
      (rendered <$> sorted_by Recent.datetime (Rag.recent_events context)) in
  Prompt.formatted_diary_entries (format_rag_context context) = section ∧
  prompt context =
    system_prompt ++ nl ++ nl ++
    user_prompt
      {| Prompt.current_datetime := Rag.current_datetime context;
         Prompt.date_range := Rag.date_range context;
         Prompt.formatted_diary_entries := section;
         Prompt.formatted_calendar_events :=
           Prompt.formatted_calendar_events (format_rag_context context) |} ∧
  (∀ entry,
     (length (Recent.content entry) ≤ 200)%nat →
     rendered entry =
       lit "[" ++ Recent.datetime entry ++ lit "] " ++ Recent.content entry) ∧
  (∀ entry,
     (200 < length (Recent.content entry))%nat →
     rendered entry =
       lit "[" ++ Recent.datetime entry ++ lit "] "
       ++ take 200 (Recent.content entry) ++ lit "..." ∧
     length (take 200 (Recent.content entry)) = 200%nat ∧
     take 200 (Recent.content entry) `prefix_of` Recent.content entry).
Proof.
  intros rendered section.
  assert (Prompt.formatted_diary_entries (format_rag_context context)
          = section) as Hsection.
  { unfold section. simpl. f_equal. apply list_fmap_ext.
    intros i entry _. apply diary_line_cases. }
  split; [done|]. split.
  - unfold prompt. rewrite <- Hsection. reflexivity.
  - split.
    + intros entry Hle. unfold rendered.
      by destruct (Nat.leb_spec (length (Recent.content entry)) 200);
        [|lia].
    + intros entry Hlt. unfold rendered.
      destruct (Nat.leb_spec (length (Recent.content entry)) 200); [lia|].
      split; [done|]. split; [rewrite length_take; lia|].
      apply prefix_take.
Qed.

Lemma C6_truncation_witness :
  let short := {| Recent.datetime := lit "2024-06-09 20:00";
                  Recent.content := lit "fine"; Recent.days_ago := 1 |} in
  let long := {| Recent.datetime := lit "2024-06-03 08:00";
                 Recent.content := replicate 201 120%N;
                 Recent.days_ago := 7 |} in
  let context :=
    {| Rag.current_datetime := lit "2024-06-10 09:00:00";
       Rag.recent_events := [short; long];
       Rag.upcoming_events := [];
       Rag.date_range :=
         {| start := lit "2024-06-03"; end_ := lit "2024-06-24" |} |} in
  Prompt.formatted_diary_entries (format_rag_context context) =
    lit "[2024-06-03 08:00] " ++ replicate 200 120%N ++ lit "..."
    ++ nl ++ lit "[2024-06-09 20:00] fine".
Proof.
  intros short long context.
  rewrite (proj1 (C6_truncation context)).
  vm_compute. reflexivity.
Defined.

(** ** Analysis request *)

(** C7.  When the decoded response is an object whose ["choices"] is a
    list starting with an object that has a string under ["text"], the
    request returns that string without its leading and trailing
    whitespace; [{"choices": [{"text": "  hello  "}]}] gives ["hello"].
    When the object has no ["choices"], or an empty list there, the
    request returns ["No analysis available"], as a result and not as a
    failure. *)
Theorem C7_first_completion_text :
  (∀ items first rest text,
     lookup_key items choices = Some (PyList (PyDict first :: rest)) →
     lookup_key first (lit "text") = Some (PyStr text) →
     query_llm (Parsed (PyDict items)) = Return (strip text) ∧
     trimmed text (strip text)) ∧
  query_llm
    (Parsed (PyDict [(lit "choices",
                      PyList [PyDict [(lit "text", PyStr (lit "  hello  "))]])]))
    = Return (lit "hello") ∧
  (∀ items, lookup_key items choices = None →
     query_llm (Parsed (PyDict items)) = Return (lit "No analysis available")) ∧
  (∀ items, lookup_key items choices = Some (PyList []) →
     query_llm (Parsed (PyDict items)) = Return (lit "No analysis available")).
Proof.
  split; [|split; [by vm_compute|split]].
  - intros items first rest text Hchoices Htext.
    split; [|apply strip_trimmed].
    unfold query_llm, try_block, extract_analysis. simpl.
    rewrite Hchoices. simpl. by rewrite Htext.
  - intros items Hchoices.
    unfold query_llm, try_block, extract_analysis. simpl.
    by rewrite Hchoices.
  - intros items Hchoices.
    unfold query_llm, try_block, extract_analysis. simpl.
    by rewrite Hchoices.
Qed.

Lemma C7_first_completion_text_witness :
  query_llm
    (Parsed (PyDict [(lit "id", PyStr (lit "cmpl-1"));
                     (lit "choices",
                      PyList [PyDict [(lit "index", PyInt 0);
                                      (lit "text", PyStr (lit " Busy week. "))]])]))
    = Return (strip (lit " Busy week. ")) ∧
  query_llm (Parsed (PyDict [(lit "id", PyStr (lit "cmpl-1"))]))
    = Return (lit "No analysis available") ∧
  query_llm (Parsed (PyDict [(lit "choices", PyList [])]))
    = Return (lit "No analysis available").
Proof.
  destruct C7_first_completion_text as (Htext & _ & Habsent & Hempty).
  split; [|split].
  - eapply Htext; vm_compute; reflexivity.
  - apply Habsent. vm_compute. reflexivity.
  - apply Hempty. vm_compute. reflexivity.
Defined.

(** C9.  The request fails exactly when the exchange fails (connection
    error, timeout, error status, body that is not JSON) or the decoded
    body is not one it can read, and it has two reports: a failure to
    connect for the first three, an error in processing the response for
    a decoded body it cannot read.  A body that is not JSON, though, is
    reported as a failure to connect, like a connection error: the error
    of [response.json()] is caught by the first [except] clause, and the
    report meant for a response that cannot be interpreted is not the
    one given. *)
Theorem C9_undecodable_body_reported_as_connection_failure x :
  match x with
  | Failed err => query_llm x = Raise_failed_to_connect (Requests err)
  | Parsed result =>
      if readable result then ∃ analysis, query_llm x = Return analysis
      else ∃ e, query_llm x = Raise_error_processing (Builtin e)
  end.
Proof.
  destruct x as [[]|result]; try reflexivity.
  unfold query_llm, try_block, extract_analysis, readable.
  destruct result as [|b|n|f|s|items|items]; simpl; eauto.
  - destruct (contains s choices); simpl; eauto.
  - destruct (existsb (is_str choices) items); simpl; eauto.
  - destruct (lookup_key items choices) as [c|] eqn:Hc; simpl; eauto.
    destruct c as [|[]|n|[]|[]|[|[] ?]|[]]; simpl; eauto.
    + destruct (n =? 0); simpl; eauto.
    + destruct (lookup_key _ (lit "text")) as [[]|]; simpl; eauto.
Qed.

(** C10.  When the first choice is an object without ["text"], the
    request returns ["No analysis available"]. *)
Theorem C10_missing_text items first rest :
  lookup_key items choices = Some (PyList (PyDict first :: rest)) →
  lookup_key first (lit "text") = None →
  query_llm (Parsed (PyDict items)) = Return (lit "No analysis available").
Proof.
  intros Hchoices Htext.
  unfold query_llm, try_block, extract_analysis. simpl.
  rewrite Hchoices. simpl. by rewrite Htext.
Qed.

Lemma C10_missing_text_witness :
  query_llm
    (Parsed (PyDict [(lit "choices",
                      PyList [PyDict [(lit "finish_reason",
                                       PyStr (lit "stop"))]])]))
    = Return (lit "No analysis available").
Proof.
  eapply C10_missing_text; vm_compute; reflexivity.
Defined.

(** ** Saving a diary entry *)

(** C8.  When the text of the entry is empty or all whitespace, saving
    shows the error dialog and changes nothing: the mappings in memory
    and the files on disk are the ones before the call. *)
Theorem C8_blank_entry_not_saved json_dump self datetime_str entry w fs :
  forallb isspace entry = true →
  save_diary_entry json_dump self datetime_str entry w fs =
    (self, fs, [critical (lit "Error") (lit "Diary entry cannot be empty.")]).
Proof.
  intros Hblank. unfold save_diary_entry, validate_entry.
  by rewrite strip_spaces.
Qed.

Lemma C8_blank_entry_not_saved_witness :
  let self :=
    {| diary_entries := [(lit "2024-06-09 20:00", lit "fine")];
       calendar_events := [] |} in
  save_diary_entry (λ _, lit "{}") self (lit "2024-06-10 09:00")
    [32; 9; 10]%N Written ∅ =
    (self, ∅, [critical (lit "Error") (lit "Diary entry cannot be empty.")]).
Proof.
  intros self. apply C8_blank_entry_not_saved. vm_compute. reflexivity.
Defined.

(** * Further properties of the program *)

(** ** Whitespace *)

Lemma forallb_isspace_elem s :
  forallb isspace s = true ↔ ∀ c, c ∈ s → isspace c = true.
Proof.
  rewrite forallb_forall. split; intros H c Hc; apply H;
    by apply list_elem_of_In.
Qed.

Lemma lstrip_id s :
  (∀ c t, s = c :: t → isspace c = false) → lstrip s = s.
Proof.
  destruct s as [|c t]; simpl; [done|].
  intros H. by rewrite (H c t).
Qed.

(** Stripping a stripped text changes nothing. *)
Lemma strip_idemp s : strip (strip s) = strip s.
Proof.
  destruct (strip_trimmed s) as (_ & _ & _ & _ & _ & Hhead & Hlast).
  unfold strip at 1, rstrip. rewrite (lstrip_id (strip s)) by done.
  rewrite lstrip_id; [apply rev_involutive|].
  intros c t Hrev. apply (Hlast (rev t) c).
  apply (f_equal (@rev _)) in Hrev. by rewrite rev_involutive in Hrev.
Qed.

Lemma strip_nonblank s :
  truthy_str (strip s) = true ↔ ∃ c, c ∈ s ∧ isspace c = false.
Proof.
  destruct (strip_trimmed s) as (l & r & Hs & Hl & Hr & Hhead & _).
  split.
  - destruct (strip s) as [|c t] eqn:Ht; [done|]. intros _.
    exists c. split; [|by apply (Hhead c t)].
    rewrite Hs. set_solver.
  - intros (c & Hc & Hspace).
    destruct (strip s) as [|c' t]; [|done]. exfalso.
    rewrite Hs in Hc. simpl in Hc. apply elem_of_app in Hc.
    rewrite forallb_isspace_elem in Hl, Hr.
    destruct Hc as [Hc|Hc]; [apply Hl in Hc|apply Hr in Hc]; congruence.
Qed.

(** X1.  [validate_entry] accepts a text exactly when it has a character
    that is not whitespace. *)
Theorem validate_entry_iff entry :
  validate_entry entry = true ↔ ∃ c, c ∈ entry ∧ isspace c = false.
Proof. apply strip_nonblank. Qed.

(** ** The mappings *)

Lemma str_eqb_eq a b : str_eqb a b = true ↔ a = b.
Proof. unfold str_eqb. by rewrite bool_decide_eq_true. Qed.

Section DictFacts.
Context {V : Type}.
Implicit Types (d : dict V) (k : str) (v : V).

Lemma getitem_setitem d k v : getitem (setitem d k v) k = Some v.
Proof.
  induction d as [|[k' v'] d IH]; simpl.
  - unfold str_eqb. by rewrite bool_decide_true.
  - destruct (str_eqb k' k) eqn:Hk; simpl.
    + unfold str_eqb. by rewrite bool_decide_true.
    + by rewrite Hk.
Qed.

Lemma getitem_setitem_ne d k k' v :
  k ≠ k' → getitem (setitem d k v) k' = getitem d k'.
Proof.
  intros Hne. induction d as [|[k0 v0] d IH]; simpl.
  - unfold str_eqb. by rewrite bool_decide_false.
  - destruct (str_eqb k0 k) eqn:Hk; simpl; [|by rewrite IH].
    apply str_eqb_eq in Hk as ->.
    unfold str_eqb. by rewrite !bool_decide_false.
Qed.

Lemma keys_setitem d k v :
  keys (setitem d k v) = if bool_decide (k ∈ keys d) then keys d
                         else keys d ++ [k].
Proof.
  induction d as [|[k' v'] d IH]; [done|].
  change (keys ((k', v') :: d)) with (k' :: keys d).
  cbn [setitem]. destruct (str_eqb k' k) eqn:Hk.
  - apply str_eqb_eq in Hk as ->.
    rewrite bool_decide_true by apply list_elem_of_here. done.
  - change (keys ((k', v') :: setitem d k v))
      with (k' :: keys (setitem d k v)).
    rewrite IH. assert (k' ≠ k) as Hne.
    { intros ->. unfold str_eqb in Hk. by rewrite bool_decide_true in Hk. }
    destruct (bool_decide (k ∈ keys d)) eqn:Hin.
    + apply bool_decide_eq_true in Hin.
      rewrite bool_decide_true; [done|]. by apply list_elem_of_further.
    + apply bool_decide_eq_false in Hin.
      rewrite bool_decide_false; [done|].
      intros [?|?]%elem_of_cons; congruence.
Qed.

Lemma NoDup_keys_setitem d k v : NoDup (keys d) → NoDup (keys (setitem d k v)).
Proof.
  intros Hd. rewrite keys_setitem. case_bool_decide as Hin; [done|].
  apply NoDup_app. split; [done|]. split; [|apply NoDup_singleton].
  intros x Hx ->%list_elem_of_singleton. done.
Qed.

Lemma elem_of_setitem d k v : (k, v) ∈ setitem d k v.
Proof.
  induction d as [|[k' v'] d IH]; simpl; [apply list_elem_of_here|].
  destruct (str_eqb k' k); [apply list_elem_of_here|].
  by apply list_elem_of_further.
Qed.

Lemma length_setitem d k v :
  length (setitem d k v) =
    if bool_decide (k ∈ keys d) then length d else S (length d).
Proof.
  rewrite <- (length_fmap fst (setitem d k v)).
  change (fst <$> setitem d k v) with (keys (setitem d k v)).
  rewrite keys_setitem.
  case_bool_decide; unfold keys; rewrite ?length_app, ?length_fmap;
    simpl; lia.
Qed.

End DictFacts.

(** ** Saving *)


Lemma save_diary_entry_valid json_dump (self : DiaryApp) datetime_str entry w fs :
  validate_entry entry = true →
  save_diary_entry json_dump self datetime_str entry w fs =
    let self' :=
      {| diary_entries := setitem (diary_entries self) datetime_str entry;
         calendar_events := calendar_events self |} in
    let saved :=
      save_json json_dump (diary_entries self') (lit "diary_entries.json")
        w fs in
    (self', saved.1,
     saved.2 ++ [information (lit "Success")
                   (lit "Diary entry saved successfully.")]).
Proof.
  intros Hvalid. unfold save_diary_entry. rewrite Hvalid. simpl.
  by destruct (save_json _ _ _ _ _).
Qed.

(** X2.  Saving a text that is not blank stores it as it is (nothing is
    stripped) under the timestamp of the form: the other entries keep
    their texts, an existing timestamp keeps its place and a new one goes
    to the end, the events are not touched, and the last dialog announces
    the success. *)
Theorem save_diary_entry_stores json_dump (self : DiaryApp) datetime_str entry w fs :
  validate_entry entry = true →
  let result := save_diary_entry json_dump self datetime_str entry w fs in
  let self' := result.1.1 in
  getitem (diary_entries self') datetime_str = Some entry ∧
  (∀ k, k ≠ datetime_str →
     getitem (diary_entries self') k = getitem (diary_entries self) k) ∧
  keys (diary_entries self') =
    (if bool_decide (datetime_str ∈ keys (diary_entries self))
     then keys (diary_entries self)
     else keys (diary_entries self) ++ [datetime_str]) ∧
  calendar_events self' = calendar_events self ∧
  last result.2 =
    Some (information (lit "Success") (lit "Diary entry saved successfully.")).
Proof.
  intros Hvalid. rewrite save_diary_entry_valid by done. simpl.
  split; [apply getitem_setitem|].
  split; [intros k Hk; by apply getitem_setitem_ne|].
  split; [apply keys_setitem|]. split; [done|]. apply last_snoc.
Qed.

Lemma save_diary_entry_stores_witness :
  let self :=
    {| diary_entries := [(lit "2024-06-09 20:00", lit "fine")];
       calendar_events := [] |} in
  let result :=
    save_diary_entry (λ _, lit "{}") self (lit "2024-06-10 09:00")
      (lit " tired ") Written ∅ in
  getitem (diary_entries result.1.1) (lit "2024-06-10 09:00")
    = Some (lit " tired ") ∧
  keys (diary_entries result.1.1)
    = [lit "2024-06-09 20:00"; lit "2024-06-10 09:00"].
Proof.
  intros self result.
  destruct (save_diary_entry_stores (λ _, lit "{}") self (lit "2024-06-10 09:00")
              (lit " tired ") Written ∅) as (Hget & _ & Hkeys & _).
  - vm_compute. reflexivity.
  - split; [exact Hget|exact Hkeys].
Defined.

(** X3.  When the write goes through, the diary file holds the dump of
    exactly the mapping now in memory, every other file is as before, and
    the only dialog is the announcement of the success. *)
Theorem save_diary_entry_written json_dump (self : DiaryApp) datetime_str entry fs :
  validate_entry entry = true →
  let result := save_diary_entry json_dump self datetime_str entry Written fs in
  result.1.2 !! lit "diary_entries.json"
    = Some (json_dump (diary_entries result.1.1)) ∧
  (∀ filename, filename ≠ lit "diary_entries.json" →
     result.1.2 !! filename = fs !! filename) ∧
  result.2 =
    [information (lit "Success") (lit "Diary entry saved successfully.")].
Proof.
  intros Hvalid. rewrite save_diary_entry_valid by done. simpl.
  split; [apply lookup_insert_eq|].
  split; [|done]. intros filename Hne. by apply lookup_insert_ne.
Qed.

Lemma save_diary_entry_written_witness :
  let self := {| diary_entries := []; calendar_events := [] |} in
  let result :=
    save_diary_entry (λ d, lit "dump") self (lit "2024-06-10 09:00")
      (lit "tired") Written ∅ in
  result.1.2 !! lit "diary_entries.json" = Some (lit "dump") ∧
  result.2 =
    [information (lit "Success") (lit "Diary entry saved successfully.")].
Proof.
  intros self result.
  destruct (save_diary_entry_written (λ d, lit "dump") self (lit "2024-06-10 09:00")
              (lit "tired") ∅) as (Hfile & _ & Hdialogs).
  - vm_compute. reflexivity.
  - split; [exact Hfile|exact Hdialogs].
Defined.

(** X4.  When the write fails, the entry is in the mapping in memory all
    the same, and the error dialog is followed by the dialog that
    announces a success. *)
Theorem save_diary_entry_write_failed json_dump (self : DiaryApp) datetime_str entry e remains fs :
  validate_entry entry = true →
  let result :=
    save_diary_entry json_dump self datetime_str entry
      (WriteFailed e remains) fs in
  getitem (diary_entries result.1.1) datetime_str = Some entry ∧
  result.1.2 !! lit "diary_entries.json" = remains ∧
  result.2 =
    [ critical (lit "Error")
        (lit "Error saving diary_entries.json: " ++ e);
      information (lit "Success") (lit "Diary entry saved successfully.") ].
Proof.
  intros Hvalid. rewrite save_diary_entry_valid by done. simpl.
  split; [apply getitem_setitem|]. split; [|done].
  destruct remains; [apply lookup_insert_eq|apply lookup_delete_eq].
Qed.

Lemma save_diary_entry_write_failed_witness :
  let self := {| diary_entries := []; calendar_events := [] |} in
  let result :=
    save_diary_entry (λ d, lit "dump") self (lit "2024-06-10 09:00")
      (lit "tired") (WriteFailed (lit "disk full") (Some (lit "{"))) ∅ in
  getitem (diary_entries result.1.1) (lit "2024-06-10 09:00")
    = Some (lit "tired") ∧
  result.1.2 !! lit "diary_entries.json" = Some (lit "{") ∧
  result.2 =
    [ critical (lit "Error")
        (lit "Error saving diary_entries.json: " ++ lit "disk full");
      information (lit "Success") (lit "Diary entry saved successfully.") ].
Proof.
  intros self result.
  apply (save_diary_entry_write_failed (λ d, lit "dump") self (lit "2024-06-10 09:00")
           (lit "tired") (lit "disk full") (Some (lit "{")) ∅).
  vm_compute. reflexivity.
Defined.

(** X5.  Saving twice under one timestamp keeps the second text only: the
    timestamps of the mapping are those after the first save. *)
Theorem save_diary_entry_last_write_wins json_dump (self : DiaryApp) datetime_str e1 e2 w1 w2 fs :
  validate_entry e1 = true → validate_entry e2 = true →
  let first := save_diary_entry json_dump self datetime_str e1 w1 fs in
  let second :=
    save_diary_entry json_dump first.1.1 datetime_str e2 w2 first.1.2 in
  getitem (diary_entries second.1.1) datetime_str = Some e2 ∧
  keys (diary_entries second.1.1) = keys (diary_entries first.1.1).
Proof.
  intros H1 H2. rewrite (save_diary_entry_valid _ self) by done. simpl.
  rewrite save_diary_entry_valid by done. simpl.
  split; [apply getitem_setitem|].
  rewrite (keys_setitem (setitem _ _ _)), bool_decide_true; [done|].
  rewrite keys_setitem. case_bool_decide; [done|].
  apply elem_of_app. right. apply list_elem_of_here.
Qed.

Lemma save_diary_entry_last_write_wins_witness :
  let self := {| diary_entries := []; calendar_events := [] |} in
  let first :=
    save_diary_entry (λ d, lit "dump") self (lit "2024-06-10 09:00")
      (lit "tired") Written ∅ in
  let second :=
    save_diary_entry (λ d, lit "dump") first.1.1 (lit "2024-06-10 09:00")
      (lit "rested") Written first.1.2 in
  getitem (diary_entries second.1.1) (lit "2024-06-10 09:00")
    = Some (lit "rested") ∧
  keys (diary_entries second.1.1) = keys (diary_entries first.1.1).
Proof.
  intros self first second.
  apply (save_diary_entry_last_write_wins (λ d, lit "dump") self (lit "2024-06-10 09:00")
           (lit "tired") (lit "rested") Written Written ∅);
    vm_compute; reflexivity.
Defined.

(** X6.  An event whose description is blank, or whose timestamp is the
    empty text, is refused with the dialog about the description: the
    mappings, the disk and the description field stay as they are. *)
Theorem save_calendar_event_refused json_dump (self : DiaryApp) datetime_str text w fs :
  datetime_str = [] ∨ forallb isspace text = true →
  save_calendar_event json_dump self datetime_str text w fs =
    (self, fs,
     [critical (lit "Error") (lit "Event description cannot be empty.")],
     text).
Proof.
  intros H. unfold save_calendar_event, validate_event.
  destruct H as [->|Hblank]; [done|].
  rewrite strip_idemp, (strip_spaces text) by done.
  by destruct datetime_str.
Qed.

Lemma save_calendar_event_refused_witness :
  let self := {| diary_entries := []; calendar_events := [] |} in
  save_calendar_event (λ d, lit "dump") self (lit "2024-06-12 10:00")
    (lit "   ") Written ∅ =
    (self, ∅,
     [critical (lit "Error") (lit "Event description cannot be empty.")],
     lit "   ").
Proof.
  intros self. apply save_calendar_event_refused.
  right. vm_compute. reflexivity.
Defined.

Lemma save_calendar_event_valid json_dump (self : DiaryApp) datetime_str
    text w fs :
  datetime_str ≠ [] → truthy_str (strip text) = true →
  save_calendar_event json_dump self datetime_str text w fs =
    let self' :=
      {| diary_entries := diary_entries self;
         calendar_events :=
           setitem (calendar_events self) datetime_str (strip text) |} in
    let saved :=
      save_json json_dump (calendar_events self')
        (lit "calendar_events.json") w fs in
    (self', saved.1,
     saved.2 ++ [information (lit "Success")
                   (lit "Event saved successfully.")],
     lit "").
Proof.
  intros Hkey Htext. unfold save_calendar_event, validate_event.
  rewrite strip_idemp.
  destruct datetime_str as [|c k]; [done|].
  cbn [truthy_str]. rewrite Htext.
  by destruct (save_json _ _ _ _ _).
Qed.

(** X7.  An event with a timestamp and a description that is not blank is
    stored with its description stripped of the whitespace around it; the
    diary is not touched and the description field is emptied. *)
Theorem save_calendar_event_stores json_dump (self : DiaryApp) datetime_str
    text w fs :
  datetime_str ≠ [] → (∃ c, c ∈ text ∧ isspace c = false) →
  let result := save_calendar_event json_dump self datetime_str text w fs in
  let self' := result.1.1.1 in
  getitem (calendar_events self') datetime_str = Some (strip text) ∧
  trimmed text (strip text) ∧
  (∀ k, k ≠ datetime_str →
     getitem (calendar_events self') k = getitem (calendar_events self) k) ∧
  diary_entries self' = diary_entries self ∧
  result.2 = [].
Proof.
  intros Hkey Htext%strip_nonblank.
  rewrite save_calendar_event_valid by done. simpl.
  split; [apply getitem_setitem|]. split; [apply strip_trimmed|].
  split; [|split; reflexivity]. intros k' Hk'. by apply getitem_setitem_ne.
Qed.

Lemma save_calendar_event_stores_witness :
  let self := {| diary_entries := []; calendar_events := [] |} in
  let result :=
    save_calendar_event (λ d, lit "dump") self (lit "2024-06-12 10:00")
      (lit "  dentist ") Written ∅ in
  getitem (calendar_events result.1.1.1) (lit "2024-06-12 10:00")
    = Some (strip (lit "  dentist ")) ∧
  result.2 = [].
Proof.
  intros self result.
  destruct (save_calendar_event_stores (λ d, lit "dump") self (lit "2024-06-12 10:00")
              (lit "  dentist ") Written ∅) as (Hget & _ & _ & _ & Hfield).
  - done.
  - exists 100%N. split; [|reflexivity].
    do 2 apply list_elem_of_further. apply list_elem_of_here.
  - split; [exact Hget|exact Hfield].
Defined.

(** X8.  Both operations keep the timestamps of both mappings distinct,
    whatever the text and however the write goes. *)
Theorem saving_keeps_keys_distinct json_dump (self : DiaryApp) datetime_str text w fs :
  NoDup (keys (diary_entries self)) → NoDup (keys (calendar_events self)) →
  let saved := (save_diary_entry json_dump self datetime_str text w fs).1.1 in
  let saved' :=
    (save_calendar_event json_dump self datetime_str text w fs).1.1.1 in
  NoDup (keys (diary_entries saved)) ∧ NoDup (keys (calendar_events saved)) ∧
  NoDup (keys (diary_entries saved')) ∧ NoDup (keys (calendar_events saved')).
Proof.
  intros Hd He. unfold save_diary_entry, save_calendar_event.
  destruct (validate_entry text), (validate_event _ _);
    repeat (destruct (save_json _ _ _ _ _)); simpl;
    repeat split; auto using NoDup_keys_setitem.
Qed.

Lemma saving_keeps_keys_distinct_witness :
  let self :=
    {| diary_entries := [(lit "2024-06-09 20:00", lit "fine")];
       calendar_events := [] |} in
  NoDup (keys (diary_entries
           (save_diary_entry (λ d, lit "dump") self (lit "2024-06-09 20:00")
              (lit "better") Written ∅).1.1)).
Proof.
  intros self.
  apply (saving_keeps_keys_distinct (λ d, lit "dump") self (lit "2024-06-09 20:00")
           (lit "better") Written ∅).
  - simpl. apply NoDup_singleton.
  - simpl. apply NoDup_nil_2.
Defined.


(** ** Loading *)



(** ** Showing a day *)

Lemma startswith_app p s : startswith (p ++ s) p = true.
Proof.
  induction p as [|c p IH]; simpl; [by destruct s|]. by rewrite N.eqb_refl.
Qed.

Lemma elem_of_lines_for_date d date line :
  line ∈ lines_for_date d date ↔
  ∃ k v, (k, v) ∈ d ∧ startswith k date = true ∧ line = k ++ lit ": " ++ v.
Proof.
  unfold lines_for_date. rewrite list_elem_of_fmap. split.
  - intros ([k v] & -> & Hin). apply list_elem_of_In, filter_In in Hin.
    destruct Hin as [Hin Hstart]. exists k, v.
    by rewrite list_elem_of_In.
  - intros (k & v & Hin & Hstart & ->). exists (k, v). split; [done|].
    apply list_elem_of_In, filter_In. by rewrite <- list_elem_of_In.
Qed.


(** X11.  An entry saved under the timestamp written from a day and a
    time is listed when that day is shown, as the line
    [timestamp: text]. *)
Theorem saved_entry_is_listed json_dump (self : DiaryApp) jd ms entry w fs
    current_time :
  validate_entry entry = true →
  let key := Qt.toString (Qt.DateTime jd ms) Qt.yyyy_MM_dd_HH_mm in
  let self' := (save_diary_entry json_dump self key entry w fs).1.1 in
  ∃ lines,
    diary_entry_setText (load_selected_date_content self' jd current_time)
      = join nl lines ∧
    key ++ lit ": " ++ entry ∈ lines.
Proof.
  intros Hvalid key self'.
  exists (lines_for_date (diary_entries self') (Qt.toString_date jd)).
  assert (key ++ lit ": " ++ entry
            ∈ lines_for_date (diary_entries self') (Qt.toString_date jd))
    as Hline.
  { apply elem_of_lines_for_date. exists key, entry.
    split; [|split; [apply startswith_app|done]].
    unfold self'. rewrite save_diary_entry_valid by done. simpl.
    apply elem_of_setitem. }
  split; [|done]. simpl. unfold text_or.
  destruct (lines_for_date _ _); [|done]. by apply elem_of_nil in Hline.
Qed.

Lemma saved_entry_is_listed_witness :
  ∃ lines,
    diary_entry_setText
      (load_selected_date_content
         (save_diary_entry (λ d, lit "dump")
            {| diary_entries := []; calendar_events := [] |}
            (lit "2024-06-10 09:00") (lit "tired") Written ∅).1.1
         2460472 75600000)
      = join nl lines ∧
    lit "2024-06-10 09:00" ++ lit ": " ++ lit "tired" ∈ lines.
Proof.
  apply (saved_entry_is_listed (λ d, lit "dump")
           {| diary_entries := []; calendar_events := [] |}
           2460472 32400000 (lit "tired") Written ∅ 75600000).
  vm_compute. reflexivity.
Defined.


(** ** Running an analysis *)

Lemma query_llm_return_stripped x analysis :
  query_llm x = Return analysis → strip analysis = analysis.
Proof.
  assert (strip no_analysis = no_analysis) as Hsentinel by by vm_compute.
  destruct x as [[]|result]; try done.
  unfold query_llm, try_block, extract_analysis.
  destruct result as [|b|n|f|s|items|items]; simpl; try done.
  - destruct (contains s choices); simpl; [done|]. by intros [= <-].
  - destruct (existsb (is_str choices) items); simpl; [done|].
    by intros [= <-].
  - destruct (lookup_key items choices) as [c|] eqn:Hc; simpl;
      [|by intros [= <-]].
    destruct c as [|[]|n|[]|[]|[|[] ?]|[]]; simpl; try done;
      try (by intros [= <-]).
    + destruct (n =? 0); simpl; [|done]. by intros [= <-].
    + destruct (lookup_key _ (lit "text")) as [[]|]; simpl; try done;
        intros [= <-]; [apply strip_idemp|done].
Qed.

(** X13.  Once a request is over, either it returned a text, which is
    free of whitespace at both ends, is what the label shows and has
    switched the progress bar off with no dialog; or it raised, and then
    the progress bar is still on, the label shows what it showed before
    and one error dialog is up. *)
Theorem analysis_outcome describe self now x ui :
  let started := (fetch_closest_events self now ui).2 in
  let finished := run describe x started in
  match query_llm x with
  | Return analysis =>
      finished =
        ({| progress_bar_visible := false; analysis_label := analysis |}, [])
      ∧ strip analysis = analysis
  | Raise_failed_to_connect _ | Raise_error_processing _ =>
      progress_bar_visible finished.1 = true ∧
      analysis_label finished.1 = analysis_label ui ∧
      ∃ message,
        finished.2 =
          [critical (lit "Error") (lit "Error analyzing events: " ++ message)]
  end.
Proof.
  intros started finished. unfold finished, run.
  destruct (query_llm x) as [analysis|e|e] eqn:Hq; simpl.
  - split; [done|]. by apply (query_llm_return_stripped x).
  - split; [done|]. split; [done|]. by eexists.
  - split; [done|]. split; [done|]. by eexists.
Qed.

(** ** More on the context builder *)

Section BuilderFacts.
Variable parse : str → Qt.QDateTime.
Variable now : Qt.QDateTime.

Lemma recent_loop items acc :
  foldl (recent_step parse now) acc items =
  acc ++
    ((λ kv, {| Recent.datetime := kv.1; Recent.content := kv.2;
               Recent.days_ago := Z.abs (Qt.daysTo (parse kv.1) now) |})
     <$> List.filter
           (λ kv, (-7 <=? Qt.daysTo (parse kv.1) now)
                  && (Qt.daysTo (parse kv.1) now <=? 0)) items).
Proof.
  revert acc; induction items as [|[k v] items IH]; intros acc; simpl.
  - by rewrite app_nil_r.
  - rewrite IH.
    destruct ((-7 <=? _) && (_ <=? 0)); simpl; [|done].
    by rewrite <- app_assoc.
Qed.

Lemma upcoming_loop items acc :
  foldl (upcoming_step parse now) acc items =
  acc ++
    ((λ kv, {| Upcoming.datetime := kv.1; Upcoming.event := kv.2;
               Upcoming.days_until := Qt.daysTo now (parse kv.1);
               Upcoming.is_urgent := Qt.daysTo now (parse kv.1) <=? 3 |})
     <$> List.filter
           (λ kv, (0 <=? Qt.daysTo now (parse kv.1))
                  && (Qt.daysTo now (parse kv.1) <=? 14)) items).
Proof.
  revert acc; induction items as [|[k v] items IH]; intros acc; simpl.
  - by rewrite app_nil_r.
  - rewrite IH.
    destruct ((0 <=? _) && (_ <=? 14)); simpl; [|done].
    by rewrite <- app_assoc.
Qed.

(** X14.  Each sequence of the context holds the items of its window
    once each, none lost, none twice and with no cap on their number: it
    is a rearrangement of the mapping's items that pass the window
    test. *)
Theorem context_sequences_are_the_windows self :
  let ctx := prepare_rag_context parse self now in
  Rag.recent_events ctx ≡ₚ
    ((λ kv, {| Recent.datetime := kv.1; Recent.content := kv.2;
               Recent.days_ago := Z.abs (Qt.daysTo (parse kv.1) now) |})
     <$> List.filter
           (λ kv, (-7 <=? Qt.daysTo (parse kv.1) now)
                  && (Qt.daysTo (parse kv.1) now <=? 0))
           (diary_entries self)) ∧
  Rag.upcoming_events ctx ≡ₚ
    ((λ kv, {| Upcoming.datetime := kv.1; Upcoming.event := kv.2;
               Upcoming.days_until := Qt.daysTo now (parse kv.1);
               Upcoming.is_urgent := Qt.daysTo now (parse kv.1) <=? 3 |})
     <$> List.filter
           (λ kv, (0 <=? Qt.daysTo now (parse kv.1))
                  && (Qt.daysTo now (parse kv.1) <=? 14))
           (calendar_events self)) ∧
  (length (Rag.recent_events ctx) ≤ length (diary_entries self))%nat ∧
  (length (Rag.upcoming_events ctx) ≤ length (calendar_events self))%nat.
Proof.
  intros ctx. unfold ctx. simpl.
  rewrite !sorted_by_perm, recent_loop, upcoming_loop. simpl.
  split; [done|]. split; [done|].
  rewrite !length_fmap. split; apply filter_length_le.
Qed.

End BuilderFacts.

(** X15.  Whether an event is upcoming depends on the days only, not on
    the times of day: an event is kept exactly when its day is the day of
    [now] or one of the fourteen days after it, with the number of days
    between the two as [days_until], and it is urgent up to the third
    day.  An event of today that is already over is still upcoming. *)
Theorem upcoming_window_in_days parse self jd_now ms key event jd_event ms' :
  (key, event) ∈ calendar_events self →
  parse key = Qt.DateTime jd_event ms' →
  {| Upcoming.datetime := key; Upcoming.event := event;
     Upcoming.days_until := jd_event - jd_now;
     Upcoming.is_urgent := jd_event - jd_now <=? 3 |}
    ∈ Rag.upcoming_events
        (prepare_rag_context parse self (Qt.DateTime jd_now ms))
  ↔ jd_now ≤ jd_event ≤ jd_now + 14.
Proof.
  intros Hin Hparse. rewrite upcoming_events_spec. split.
  - intros (k & v & _ & Hd & [= -> -> Hdays _]).
    rewrite Hparse in Hd. simpl in Hd. lia.
  - intros Hd. exists key, event. rewrite Hparse. simpl.
    split; [done|]. split; [lia|done].
Qed.

Lemma upcoming_window_in_days_witness :
  {| Upcoming.datetime := lit "2024-06-10 08:00";
     Upcoming.event := lit "standup";
     Upcoming.days_until := 2460472 - 2460472;
     Upcoming.is_urgent := 2460472 - 2460472 <=? 3 |}
    ∈ Rag.upcoming_events
        (prepare_rag_context Qt.fromString
           {| diary_entries := [];
              calendar_events := [(lit "2024-06-10 08:00", lit "standup")] |}
           (Qt.DateTime 2460472 32400000))
  ↔ 2460472 ≤ 2460472 ≤ 2460472 + 14.
Proof.
  apply (upcoming_window_in_days Qt.fromString
           {| diary_entries := [];
              calendar_events := [(lit "2024-06-10 08:00", lit "standup")] |}
           2460472 32400000 (lit "2024-06-10 08:00") (lit "standup")
           2460472 28800000).
  - simpl. apply list_elem_of_here.
  - vm_compute. reflexivity.
Defined.

(** ** The order of the items does not matter *)

Lemma str_le_antisym a b : str_le a b → str_le b a → a = b.
Proof.
  unfold str_le, str_leb. rewrite !negb_true_iff.
  intros Hba Hab. by apply str_ltb_antisym.
Qed.

Section SortUnique.
Context {A : Type} (key : A → str).

(** Two rearrangements of items with distinct keys that are both in the
    order of the keys are the same list. *)
Lemma sorted_unique l1 l2 :
  StronglySorted (key_le key) l1 → StronglySorted (key_le key) l2 →
  l1 ≡ₚ l2 → NoDup (key <$> l1) → l1 = l2.
Proof.
  intros H1. revert l2. induction H1 as [|x l1 Hl1 IH Hx]; intros l2 H2 Hp Hnd.
  - by apply Permutation_nil_l in Hp.
  - destruct H2 as [|y l2 Hl2 Hy].
    { by apply Permutation_nil_r in Hp. }
    apply NoDup_cons in Hnd as [Hxl1 Hnd].
    assert (x = y) as ->.
    { assert (x ∈ y :: l2) as Hxin by (rewrite <- Hp; apply list_elem_of_here).
      assert (y ∈ x :: l1) as Hyin by (rewrite Hp; apply list_elem_of_here).
      apply elem_of_cons in Hxin as [?|Hxin]; [done|].
      apply elem_of_cons in Hyin as [?|Hyin]; [done|].
      rewrite Forall_forall in Hx, Hy.
      assert (key x = key y) as Hk.
      { apply str_le_antisym; [by apply Hx|by apply Hy]. }
      exfalso. apply Hxl1. rewrite Hk. by apply list_elem_of_fmap_2. }
    f_equal. apply IH; [done| |done]. by apply (inj (cons y)).
Qed.

Lemma sorted_by_of_perm l1 l2 :
  l1 ≡ₚ l2 → NoDup (key <$> l1) → sorted_by key l1 = sorted_by key l2.
Proof.
  intros Hp Hnd. apply sorted_unique; try apply sorted_by_sorted.
  - by rewrite !sorted_by_perm.
  - by rewrite sorted_by_perm.
Qed.

End SortUnique.

Lemma filter_Permutation {A} (p : A → bool) l1 l2 :
  l1 ≡ₚ l2 → List.filter p l1 ≡ₚ List.filter p l2.
Proof.
  induction 1 as [|x l1 l2 _ IH|x y l|l1 l2 l3 _ IH1 _ IH2]; simpl.
  - done.
  - destruct (p x); by rewrite IH.
  - destruct (p x), (p y); try done. apply Permutation_swap.
  - by etrans.
Qed.

Lemma NoDup_keys_filter {V} (p : str * V → bool) (d : dict V) :
  NoDup (keys d) → NoDup (keys (List.filter p d)).
Proof.
  unfold keys. induction d as [|kv d IH]; simpl; [done|].
  intros [Hkv Hd]%NoDup_cons. destruct (p kv); simpl; [|by apply IH].
  apply NoDup_cons. split; [|by apply IH].
  intros (kv' & Hk & Hin)%list_elem_of_fmap. apply Hkv.
  apply list_elem_of_fmap. exists kv'. split; [done|].
  apply list_elem_of_In in Hin. apply filter_In in Hin as [Hin _].
  by apply list_elem_of_In.
Qed.

(** X16.  The context does not depend on the order in which the
    mappings hold their items: two applications with the same diary
    entries and the same events, in any order, get the same context. *)
Theorem context_ignores_mapping_order parse self self' now :
  diary_entries self ≡ₚ diary_entries self' →
  calendar_events self ≡ₚ calendar_events self' →
  NoDup (keys (diary_entries self)) → NoDup (keys (calendar_events self)) →
  prepare_rag_context parse self now = prepare_rag_context parse self' now.
Proof.
  intros Hd He Hnd Hne. unfold prepare_rag_context.
  rewrite !recent_loop, !upcoming_loop. simpl. f_equal.
  - apply sorted_by_of_perm.
    + by rewrite (filter_Permutation _ _ _ Hd).
    + rewrite <- list_fmap_compose.
      by apply (NoDup_keys_filter _ (diary_entries self)).
  - apply sorted_by_of_perm.
    + by rewrite (filter_Permutation _ _ _ He).
    + rewrite <- list_fmap_compose.
      by apply (NoDup_keys_filter _ (calendar_events self)).
Qed.

Lemma context_ignores_mapping_order_witness :
  let a := (lit "2024-06-12 10:00", lit "dentist") in
  let b := (lit "2024-06-11 18:00", lit "dinner") in
  let now := Qt.DateTime 2460472 32400000 in
  prepare_rag_context Qt.fromString
    {| diary_entries := [a; b]; calendar_events := [a; b] |} now
  = prepare_rag_context Qt.fromString
      {| diary_entries := [b; a]; calendar_events := [b; a] |} now.
Proof.
  intros a b now.
  apply context_ignores_mapping_order; simpl.
  - apply Permutation_swap.
  - apply Permutation_swap.
  - apply (bool_decide_unpack _). vm_compute. reflexivity.
  - apply (bool_decide_unpack _). vm_compute. reflexivity.
Defined.

(** X17.  The same holds of the formatter: two contexts that differ only
    in the order of their sequences, the timestamps of each sequence
    being distinct, are rendered alike. *)
Theorem format_ignores_sequence_order context context' :
  Rag.current_datetime context = Rag.current_datetime context' →
  Rag.date_range context = Rag.date_range context' →
  Rag.recent_events context ≡ₚ Rag.recent_events context' →
  Rag.upcoming_events context ≡ₚ Rag.upcoming_events context' →
  NoDup (Recent.datetime <$> Rag.recent_events context) →
  NoDup (Upcoming.datetime <$> Rag.upcoming_events context) →
  format_rag_context context = format_rag_context context'.
Proof.
  intros Hnow Hrange Hr Hu Hndr Hndu. unfold format_rag_context.
  rewrite Hnow, Hrange.
  rewrite (sorted_by_of_perm Recent.datetime _ _ Hr Hndr).
  by rewrite (sorted_by_of_perm Upcoming.datetime _ _ Hu Hndu).
Qed.

Lemma format_ignores_sequence_order_witness :
  let a := {| Recent.datetime := lit "2024-06-03 08:00";
              Recent.content := lit "ok"; Recent.days_ago := 7 |} in
  let b := {| Recent.datetime := lit "2024-06-09 20:00";
              Recent.content := lit "fine"; Recent.days_ago := 1 |} in
  let context l :=
    {| Rag.current_datetime := lit "2024-06-10 09:00:00";
       Rag.recent_events := l;
       Rag.upcoming_events := [];
       Rag.date_range :=
         {| start := lit "2024-06-03"; end_ := lit "2024-06-24" |} |} in
  format_rag_context (context [b; a]) = format_rag_context (context [a; b]).
Proof.
  intros a b context.
  apply format_ignores_sequence_order; simpl; try reflexivity.
  - apply Permutation_swap.
  - apply (bool_decide_unpack _). vm_compute. reflexivity.
  - apply NoDup_nil_2.
Defined.

(** ** The size of the rendered lines *)

(** X18.  A rendered diary line is at most 206 characters longer than
    its timestamp, however long the entry; a rendered event line carries
    the whole description, whatever its length. *)
Theorem rendered_line_lengths entry event :
  (length (diary_line entry) ≤ length (Recent.datetime entry) + 206)%nat ∧
  length (event_line event) =
    (length (Upcoming.datetime event) + 3 + length (Upcoming.event event))%nat.
Proof.
  unfold diary_line, event_line. rewrite !length_app, length_take.
  change (length (lit "[")) with 1%nat.
  change (length (lit "] ")) with 2%nat.
  split; [|lia].
  destruct (200 <? length (Recent.content entry))%nat.
  - change (length (lit "...")) with 3%nat. lia.
  - change (length (lit "")) with 0%nat. lia.
Qed.

(** ** Timestamps written and read back *)

Module KeyRoundTrip.
Import Qt QtFacts.

Lemma digit_of_Z d : 0 ≤ d ≤ 9 → digit (Z.to_N (48 + d)) = Some d.
Proof.
  intros Hd. unfold digit.
  destruct (N.leb_spec 48 (Z.to_N (48 + d))); [|lia].
  destruct (N.leb_spec (Z.to_N (48 + d)) 57); [|lia].
  simpl. f_equal. lia.
Qed.

Lemma fuel_of n : 10 ≤ n → ∃ k, Z.to_nat (Z.log2 n) = S (S (S k)).
Proof.
  intros Hn. pose proof (Z.log2_le_mono 10 n Hn) as Hlog.
  change (Z.log2 10) with 3 in Hlog.
  exists (Z.to_nat (Z.log2 n) - 3)%nat. lia.
Qed.

Lemma decimal_2 n :
  0 ≤ n ≤ 99 → decimal 2 n = [Z.to_N (48 + n / 10); Z.to_N (48 + n mod 10)].
Proof.
  intros Hn. unfold decimal.
  destruct (Z.ltb_spec n 10) as [Hlt|Hge].
  - simpl. assert ((n <? 10) = true) as -> by lia. simpl.
    f_equal. divlia.
  - destruct (fuel_of n Hge) as [k ->]. simpl.
    assert ((n <? 10) = false) as -> by lia.
    assert ((n / 10 <? 10) = true) as -> by divlia.
    simpl. f_equal. f_equal. divlia.
Qed.

Lemma decimal_4 n :
  0 ≤ n ≤ 9999 →
  decimal 4 n = [Z.to_N (48 + n / 1000); Z.to_N (48 + n / 100 mod 10);
                 Z.to_N (48 + n / 10 mod 10); Z.to_N (48 + n mod 10)].
Proof.
  intros Hn. unfold decimal.
  assert (n / 10 / 10 = n / 100) as H100 by (rewrite Z.div_div by lia; reflexivity).
  assert (n / 100 / 10 = n / 1000) as H1000 by (rewrite Z.div_div by lia; reflexivity).
  destruct (Z.ltb_spec n 10) as [Hlt|Hge].
  - simpl. assert ((n <? 10) = true) as -> by lia. simpl.
    repeat f_equal; divlia.
  - destruct (fuel_of n Hge) as [k ->]. simpl.
    assert ((n <? 10) = false) as -> by lia.
    rewrite !H100, !H1000.
    destruct (Z.ltb_spec (n / 10) 10); simpl; [repeat f_equal; divlia|].
    destruct (Z.ltb_spec (n / 100) 10); simpl; [repeat f_equal; divlia|].
    assert ((n / 1000 <? 10) = true) as -> by divlia.
    simpl. repeat f_equal; divlia.
Qed.

Lemma number_decimal_2 n :
  0 ≤ n ≤ 99 →
  ∃ c1 c2, decimal 2 n = [c1; c2] ∧ number [c1; c2] = Some n.
Proof.
  intros Hn. eexists _, _. split; [by apply decimal_2|].
  unfold number. simpl.
  rewrite !digit_of_Z by divlia. simpl. f_equal. divlia.
Qed.

Lemma number_decimal_4 n :
  0 ≤ n ≤ 9999 →
  ∃ c1 c2 c3 c4,
    decimal 4 n = [c1; c2; c3; c4] ∧ number [c1; c2; c3; c4] = Some n.
Proof.
  intros Hn. eexists _, _, _, _. split; [by apply decimal_4|].
  unfold number. simpl.
  rewrite !digit_of_Z by divlia. simpl. f_equal. divlia.
Qed.

(** Over the years 1 to 9999 the parts of a Julian day are a valid date
    with that Julian day. *)
Lemma partsFromJulian_inverse jd :
  1721426 ≤ jd ≤ 5373484 →
  ∃ y m d, partsFromJulian jd = (y, m, d) ∧ 1 ≤ y ≤ 9999 ∧
    1 ≤ m ≤ 12 ∧ 1 ≤ d ≤ 31 ∧ julianFromParts y m d = Some jd.
Proof.
  intros Hjd. unfold partsFromJulian.
  remember (jd + 32044) as a eqn:Ha.
  remember ((4 * a + 3) / 146097) as b eqn:Hb.
  remember (a - 146097 * b / 4) as c eqn:Hc.
  remember ((4 * c + 3) / 1461) as d eqn:Hd.
  remember (c - 1461 * d / 4) as e eqn:He.
  remember ((5 * e + 2) / 153) as m eqn:Hm.
  assert (0 ≤ c ≤ 36524 ∧ 0 ≤ d ≤ 99 ∧ 0 ≤ e ≤ 365 ∧ 0 ≤ m ≤ 11 ∧ 48 ≤ b ≤ 147)
    as Hbounds by divlia.
  assert (1 ≤ 100 * b + d - 4800 + m / 10 ≤ 9999) as Hy by divlia.
  assert ((100 * b + d - 4800 + m / 10 <=? 0) = false) as -> by lia.
  assert (1 ≤ e - (153 * m + 2) / 5 + 1 ≤ 31) as Hday by divlia.
  assert (1 ≤ m + 3 - 12 * (m / 10) ≤ 12) as Hmonth by divlia.
  eexists _, _, _. split; [reflexivity|]. split; [done|].
  split; [done|]. split; [done|].
  unfold julianFromParts.
  assert (validParts (100 * b + d - 4800 + m / 10) (m + 3 - 12 * (m / 10))
            (e - (153 * m + 2) / 5 + 1) = true) as ->.
  { unfold validParts.
    rewrite !andb_true_iff, negb_true_iff, Z.eqb_neq, Z.ltb_lt, Z.leb_le.
    split; [split; lia|].
    rewrite monthLength_cases by done. unfold leapTest.
    assert ((100 * b + d - 4800 + m / 10 <? 1) = false) as -> by lia.
    assert (m = 0 ∨ m = 1 ∨ m = 2 ∨ m = 3 ∨ m = 4 ∨ m = 5 ∨ m = 6 ∨ m = 7 ∨
            m = 8 ∨ m = 9 ∨ m = 10 ∨ m = 11) as Hcases by lia.
    repeat (destruct Hcases as [Hcase|Hcases]); rewrite ?Hcase, ?Hcases; simpl;
      try divlia.
    change (11 / 10) with 1.
    destruct ((100 * b + d - 4800 + 1) mod 4 =? 0) eqn:H4,
      ((100 * b + d - 4800 + 1) mod 100 =? 0) eqn:H100,
      ((100 * b + d - 4800 + 1) mod 400 =? 0) eqn:H400; simpl; divlia. }
  assert ((100 * b + d - 4800 + m / 10 <? 0) = false) as -> by lia.
  f_equal.
  assert (m = 0 ∨ m = 1 ∨ m = 2 ∨ m = 3 ∨ m = 4 ∨ m = 5 ∨ m = 6 ∨ m = 7 ∨
            m = 8 ∨ m = 9 ∨ m = 10 ∨ m = 11) as Hcases by lia.
  repeat (destruct Hcases as [Hcase|Hcases]); rewrite ?Hcase, ?Hcases; simpl;
    divlia.
Qed.


(** A timestamp written from a day of the years 1 to 9999 and a time of
    day reads back as that day, at the minute of that time. *)
Lemma key_round_trip jd ms :
  1721426 ≤ jd ≤ 5373484 → 0 ≤ ms < 86400000 →
  fromString (toString (DateTime jd ms) yyyy_MM_dd_HH_mm)
  = DateTime jd (ms / 60000 * 60000).
Proof.
  intros Hjd Hms.
  destruct (partsFromJulian_inverse jd Hjd)
    as (y & m & d & Hparts & Hy & Hm & Hd & Hjulian).
  destruct (number_decimal_4 y) as (y1 & y2 & y3 & y4 & Hys & Hyn); [lia|].
  destruct (number_decimal_2 m) as (m1 & m2 & Hmsx & Hmn); [lia|].
  destruct (number_decimal_2 d) as (d1 & d2 & Hds & Hdn); [lia|].
  destruct (number_decimal_2 (ms / 3600000))
    as (h1 & h2 & Hhs & Hhn); [divlia|].
  destruct (number_decimal_2 (ms / 60000 mod 60))
    as (n1 & n2 & Hns & Hnn); [divlia|].
  unfold fromString, toString, toString_date. rewrite Hparts.
  assert ((y <? 0) = false) as -> by lia.
  assert ((9999 <? y) = false) as -> by lia.
  rewrite Z.abs_eq by lia. rewrite Hys, Hmsx, Hds, Hhs, Hns.
  change (fields _) with
    (year ← number [y1; y2; y3; y4];
     month ← number [m1; m2];
     day ← number [d1; d2];
     hour ← number [h1; h2];
     minute ← number [n1; n2];
     Some (year, month, day, hour, minute)).
  rewrite Hyn, Hmn, Hdn, Hhn, Hnn. simpl.
  assert ((ms / 3600000 <? 24) = true) as -> by divlia.
  assert ((ms / 60000 mod 60 <? 60) = true) as -> by divlia.
  simpl. rewrite Hjulian. f_equal. divlia.
Qed.
End KeyRoundTrip.

(** X20.  An event saved under the timestamp written from a day (of the
    years 1 to 9999) and a time is found by the context builder under
    that day: it is upcoming exactly when the day is the day of [now] or
    one of the fourteen days after it, with its stripped description and
    the number of days between the two. *)
Theorem saved_event_is_upcoming json_dump (self : DiaryApp) jd ms text w fs
    jd_now ms_now :
  1721426 ≤ jd ≤ 5373484 → 0 ≤ ms < 86400000 →
  (∃ c, c ∈ text ∧ isspace c = false) →
  let key := Qt.toString (Qt.DateTime jd ms) Qt.yyyy_MM_dd_HH_mm in
  let self' := (save_calendar_event json_dump self key text w fs).1.1.1 in
  {| Upcoming.datetime := key; Upcoming.event := strip text;
     Upcoming.days_until := jd - jd_now;
     Upcoming.is_urgent := jd - jd_now <=? 3 |}
    ∈ Rag.upcoming_events
        (prepare_rag_context Qt.fromString self' (Qt.DateTime jd_now ms_now))
  ↔ jd_now ≤ jd ≤ jd_now + 14.
Proof.
  intros Hjd Hms Htext%strip_nonblank key self'.
  pose proof (KeyRoundTrip.key_round_trip jd ms Hjd Hms) as Hread.
  fold key in Hread.
  assert (key ≠ []) as Hkey by (by intros Hnil; rewrite Hnil in Hread).
  rewrite upcoming_events_spec. split.
  - intros (k & v & _ & Hd & [= <- _ Hdays _]).
    rewrite Hread in Hd. simpl in Hd. lia.
  - intros Hd. exists key, (strip text). rewrite Hread. simpl.
    split; [|split; [lia|done]].
    unfold self'. rewrite save_calendar_event_valid by done. simpl.
    apply elem_of_setitem.
Qed.

Lemma saved_event_is_upcoming_witness :
  let key := Qt.toString (Qt.DateTime 2460474 36000000) Qt.yyyy_MM_dd_HH_mm in
  let self' :=
    (save_calendar_event (λ d, lit "dump")
       {| diary_entries := []; calendar_events := [] |}
       key (lit " dentist ") Written ∅).1.1.1 in
  {| Upcoming.datetime := key; Upcoming.event := strip (lit " dentist ");
     Upcoming.days_until := 2460474 - 2460472;
     Upcoming.is_urgent := 2460474 - 2460472 <=? 3 |}
    ∈ Rag.upcoming_events
        (prepare_rag_context Qt.fromString self'
           (Qt.DateTime 2460472 32400000))
  ↔ 2460472 ≤ 2460474 ≤ 2460472 + 14.
Proof.
  apply (saved_event_is_upcoming (λ d, lit "dump")
           {| diary_entries := []; calendar_events := [] |}
           2460474 36000000 (lit " dentist ") Written ∅
           2460472 32400000); [lia|lia|].
  exists 100%N. split; [|reflexivity].
  apply list_elem_of_further. apply list_elem_of_here.
Defined.

(** ** The prompt of a request *)

(** X21.  The prompt a request sends lists the recent entries and the
    upcoming events exactly as the builder ordered them, one line each,
    in non-decreasing order of their timestamps: the formatter's own sort
    changes nothing on a context of the builder. *)
Theorem prompt_of_request self now ui :
  let context := prepare_rag_context Qt.fromString self now in
  (fetch_closest_events self now ui).1 =
    system_prompt ++ nl ++ nl ++
    user_prompt
      {| Prompt.current_datetime := Rag.current_datetime context;
         Prompt.date_range := Rag.date_range context;
         Prompt.formatted_diary_entries :=
           join nl (diary_line <$> Rag.recent_events context);
         Prompt.formatted_calendar_events :=
           join nl (event_line <$> Rag.upcoming_events context) |} ∧
  StronglySorted str_le (Recent.datetime <$> Rag.recent_events context) ∧
  StronglySorted str_le (Upcoming.datetime <$> Rag.upcoming_events context).
Proof.
  intros context. split; [|split; apply sorted_by_keys].
  destruct (format_of_prepared_context Qt.fromString self now) as [Hd He].
  unfold fetch_closest_events, prompt. simpl fst.
  fold context in Hd, He |- *.
  destruct (format_rag_context context) as [cd dr fd fe] eqn:Hf.
  simpl in Hd, He. subst fd fe.
  unfold format_rag_context in Hf. by injection Hf as <- <- _ _.
Qed.
